(** * The RPC message envelope of torch/csrc/distributed/rpc/message.cpp

    A shallow embedding of [Message], its classification predicates, its
    conversion to and from [at::IValue] tuples and the exception-response
    factory, followed by the properties the specification states about
    them.

    Conventions.
    - [std::vector<char>] is a [list byte], [std::string] a [string],
      [int64_t] an integer in [Z] (the file does no arithmetic on them).
    - [torch::Tensor] is a handle: the model keeps the address of the
      referent, so copying a handle never copies the referent.
    - Code that can throw returns a [result]; code that mutates objects
      runs in the monad [M] over a store of [Message] objects, so that
      [this] and [rhs] may name the same object. *)

From Stdlib Require Import ZArith String Ascii List Lia.
From Stdlib.Strings Require Import Byte.
From stdpp Require Import base option list gmap strings pretty.

Local Open Scope Z_scope.

(** ** Outcomes of fallible code *)

(** What a call can throw.  [c10_Error msg] is the exception raised by a
    failing [TORCH_INTERNAL_ASSERT(cond, msg)] (file and line prefix left
    out); [bad_tag] is the check an [at::IValue] extraction operation makes
    itself; [bad_alloc] is [std::bad_alloc]. *)
Inductive exception : Type :=
| c10_Error (msg : string)
| bad_tag (expected : string)
| bad_alloc.

(** [Undefined] stands for behaviour the language leaves undefined (reading
    outside a vector, using a reference to an object that is gone). *)
Inductive result (A : Type) : Type :=
| Ok (a : A)
| Throw (e : exception)
| Undefined.

Arguments Ok {A} a.
Arguments Throw {A} e.
Arguments Undefined {A}.

#[global] Instance result_ret : MRet result := @Ok.
#[global] Instance result_bind : MBind result := fun A B f r =>
  match r with
  | Ok a => f a
  | Throw e => Throw e
  | Undefined => Undefined
  end.

(** Modelled from the spec: the macro [TORCH_INTERNAL_ASSERT] is defined
    outside this file; a failed check is "fatal to the conversion attempt"
    and surfaces "a diagnostic identifying which slot/assumption failed". *)
Definition TORCH_INTERNAL_ASSERT (cond : bool) (msg : string) : result unit :=
  if cond then Ok tt else Throw (c10_Error msg).

(** ** External types *)

(** Modelled from the spec: [torch::Tensor], the binary-data handle, is
    declared outside this file ("opaque to this core beyond being copyable,
    movable, and listable"; "the handles' referents are shared ..., not
    duplicated").  A handle is the address of its referent. *)
Record Tensor : Type := TensorHandle { impl : N }.

#[global] Instance Tensor_eq_dec : EqDecision Tensor.
Proof. solve_decision. Defined.

(** Modelled from the spec: [at::IValue], the tagged-tuple value system, is
    declared outside this file ("supporting tuple, list, string/byte-string,
    and integer variants with runtime type tests (isTuple, isString, isList,
    isInt) and corresponding extraction operations").  The variants a
    message tuple is built from are kept apart; the others stand for the
    tags the codec must refuse. *)
#[warnings="-register-all"]
Inductive IValue : Type :=
| IValue_None
| IValue_Tensor (t : Tensor)
| IValue_Double (bits : Z)
| IValue_Int (i : Z)
| IValue_Bool (b : bool)
| IValue_String (s : string)
| IValue_List (elems : list IValue)
| IValue_Tuple (elems : list IValue).

Definition isTuple (v : IValue) : bool :=
  match v with IValue_Tuple _ => true | _ => false end.
Definition isString (v : IValue) : bool :=
  match v with IValue_String _ => true | _ => false end.
Definition isList (v : IValue) : bool :=
  match v with IValue_List _ => true | _ => false end.
Definition isInt (v : IValue) : bool :=
  match v with IValue_Int _ => true | _ => false end.
Definition isTensor (v : IValue) : bool :=
  match v with IValue_Tensor _ => true | _ => false end.

(** Modelled from the spec: the extraction operations of [at::IValue]
    (declared outside this file); each checks the tag itself.
    [toTuple_elements] is [v.toTuple()->elements()]. *)
Definition toTuple_elements (v : IValue) : result (list IValue) :=
  match v with IValue_Tuple l => Ok l | _ => Throw (bad_tag "Tuple") end.
Definition toStringRef (v : IValue) : result string :=
  match v with IValue_String s => Ok s | _ => Throw (bad_tag "String") end.
Definition toInt (v : IValue) : result Z :=
  match v with IValue_Int i => Ok i | _ => Throw (bad_tag "Int") end.
Definition toTensor (v : IValue) : result Tensor :=
  match v with IValue_Tensor t => Ok t | _ => Throw (bad_tag "Tensor") end.

(** Modelled from the spec: [toTensorVector] (declared outside this file)
    decodes a list "into an owned, order-preserving sequence of binary-data
    handles"; the elements are extracted front to back, and an element that
    is no handle fails the extraction. *)
Fixpoint toTensors (l : list IValue) : result (list Tensor) :=
  match l with
  | [] => Ok []
  | v :: l' => t ← toTensor v; ts ← toTensors l'; Ok (t :: ts)
  end.
Definition toTensorVector (v : IValue) : result (list Tensor) :=
  match v with
  | IValue_List l => toTensors l
  | _ => Throw (bad_tag "TensorList")
  end.

(** Modelled from the spec: [std::exception], "an error object convertible
    to" a textual description, [what()]. *)
Class std_exception (E : Type) : Type := what : E -> string.

(** ** message.h: the message kinds *)

(** The enumerators of [MessageType] that message.cpp names. *)
Inductive Enumerator : Type :=
| SCRIPT_CALL | PYTHON_CALL | SCRIPT_REMOTE_CALL | PYTHON_REMOTE_CALL
| SCRIPT_RREF_FETCH_CALL | PYTHON_RREF_FETCH_CALL
| RREF_USER_DELETE | RREF_CHILD_ACCEPT | RREF_FORK_REQUEST
| BACKWARD_AUTOGRAD_REQ | FORWARD_AUTOGRAD_REQ
| CLEANUP_AUTOGRAD_CONTEXT_REQ | RUN_WITH_PROFILING_REQ
| SCRIPT_RET | PYTHON_RET | REMOTE_RET
| SCRIPT_RREF_FETCH_RET | PYTHON_RREF_FETCH_RET
| EXCEPTION | RREF_ACK
| BACKWARD_AUTOGRAD_RESP | FORWARD_AUTOGRAD_RESP
| CLEANUP_AUTOGRAD_CONTEXT_RESP | RUN_WITH_PROFILING_RESP.

#[global] Instance Enumerator_eq_dec : EqDecision Enumerator.
Proof. solve_decision. Defined.

Definition enumerators : list Enumerator :=
  [ SCRIPT_CALL; PYTHON_CALL; SCRIPT_REMOTE_CALL; PYTHON_REMOTE_CALL;
    SCRIPT_RREF_FETCH_CALL; PYTHON_RREF_FETCH_CALL;
    RREF_USER_DELETE; RREF_CHILD_ACCEPT; RREF_FORK_REQUEST;
    BACKWARD_AUTOGRAD_REQ; FORWARD_AUTOGRAD_REQ;
    CLEANUP_AUTOGRAD_CONTEXT_REQ; RUN_WITH_PROFILING_REQ;
    SCRIPT_RET; PYTHON_RET; REMOTE_RET;
    SCRIPT_RREF_FETCH_RET; PYTHON_RREF_FETCH_RET;
    EXCEPTION; RREF_ACK;
    BACKWARD_AUTOGRAD_RESP; FORWARD_AUTOGRAD_RESP;
    CLEANUP_AUTOGRAD_CONTEXT_RESP; RUN_WITH_PROFILING_RESP ].

(** Modelled from the spec: the enumeration [MessageType] is declared in
    message.h, outside this file ("the kind is encoded as its underlying
    integer").  An object of the type holds an integer; which integer an
    enumerator stands for is left to the header.  The model keeps a kind
    as the integer it is when the object is promoted to [int]: that is the
    integer a comparison with an enumerator sees and the integer
    [IValue(type_)] is built from. *)
Definition MessageType : Type := Z.

(** ** The envelope *)

Record Message : Type := mkMessage {
  payload_ : list byte;
  tensors_ : list Tensor;
  type_ : MessageType;
  id_ : Z
}.

#[global] Instance byte_eq_dec : EqDecision byte := Byte.byte_eq_dec.

#[global] Instance Message_eq_dec : EqDecision Message.
Proof. unfold MessageType. solve_decision. Defined.

(** The anonymous enumeration [MessageIValueIdx]. *)
Definition PAYLOAD : nat := 0.
Definition TENSORS : nat := 1.
Definition TYPE : nat := 2.
Definition ID : nat := 3.
Definition SIZE : nat := 4.

(** [values[i]] on a [std::vector]: undefined outside the vector. *)
Definition at_index {A : Type} (values : list A) (i : nat) : result A :=
  match values !! i with
  | Some v => Ok v
  | None => Undefined
  end.

Section message_cpp.

(** What message.h declares and message.cpp only uses: the integer each
    enumerator stands for, the conversion [static_cast<MessageType>] from
    a 64-bit integer (its result, like every kind, as the promoted
    integer), and the default member initialisers of [type_] and [id_]
    (the unset kind and the sentinel id). *)
Variable value : Enumerator -> Z.
Variable static_cast_MessageType : Z -> MessageType.
Variable unset_type : MessageType.
Variable unset_id : Z.

(** [Message::Message()] *)
Definition Message_default : Message :=
  mkMessage [] [] unset_type unset_id.

(** [Message::Message(payload, tensors, type)] *)
Definition Message_3 (payload : list byte) (tensors : list Tensor)
    (type : MessageType) : Message :=
  mkMessage payload tensors type unset_id.

(** [Message::Message(payload, tensors, type, id)] *)
Definition Message_4 (payload : list byte) (tensors : list Tensor)
    (type : MessageType) (id : Z) : Message :=
  mkMessage payload tensors type id.

Definition type (m : Message) : MessageType := type_ m.
Definition id (m : Message) : Z := id_ m.

Definition isRequest (m : Message) : bool :=
  (value SCRIPT_CALL =? type_ m) ||
  (value PYTHON_CALL =? type_ m) ||
  (value SCRIPT_REMOTE_CALL =? type_ m) ||
  (value PYTHON_REMOTE_CALL =? type_ m) ||
  (value SCRIPT_RREF_FETCH_CALL =? type_ m) ||
  (value PYTHON_RREF_FETCH_CALL =? type_ m) ||
  (value RREF_USER_DELETE =? type_ m) ||
  (value RREF_CHILD_ACCEPT =? type_ m) ||
  (value RREF_FORK_REQUEST =? type_ m) ||
  (value BACKWARD_AUTOGRAD_REQ =? type_ m) ||
  (value FORWARD_AUTOGRAD_REQ =? type_ m) ||
  (value CLEANUP_AUTOGRAD_CONTEXT_REQ =? type_ m) ||
  (value RUN_WITH_PROFILING_REQ =? type_ m).

Definition isResponse (m : Message) : bool :=
  (value SCRIPT_RET =? type_ m) ||
  (value PYTHON_RET =? type_ m) ||
  (value REMOTE_RET =? type_ m) ||
  (value SCRIPT_RREF_FETCH_RET =? type_ m) ||
  (value PYTHON_RREF_FETCH_RET =? type_ m) ||
  (value EXCEPTION =? type_ m) ||
  (value RREF_ACK =? type_ m) ||
  (value BACKWARD_AUTOGRAD_RESP =? type_ m) ||
  (value FORWARD_AUTOGRAD_RESP =? type_ m) ||
  (value CLEANUP_AUTOGRAD_CONTEXT_RESP =? type_ m) ||
  (value RUN_WITH_PROFILING_RESP =? type_ m).

(** [Message::toIValueTuple]: the payload as a string, the tensors as a
    list filled front to back, the kind and the id as integers.
    [IValue(type_)] is built from the kind promoted to [int], which is the
    integer [type_] stands for in the model. *)
Definition toIValueTuple (m : Message) : IValue :=
  let payload := string_of_list_byte (payload_ m) in
  let messageTensors := map IValue_Tensor (tensors_ m) in
  IValue_Tuple
    [ IValue_String payload; IValue_List messageTensors;
      IValue_Int (type_ m); IValue_Int (id_ m) ].

(** [Message::fromIValueTuple] *)
Definition fromIValueTuple (messageTuple : IValue) : result Message :=
  TORCH_INTERNAL_ASSERT (isTuple messageTuple)
    "Expected messageTuple to be of type tuple." ;;
  values ← toTuple_elements messageTuple;
  TORCH_INTERNAL_ASSERT (Nat.eqb (length values) SIZE)
    ("Expected " +:+ pretty SIZE +:+ " elements in tuple.") ;;
  payloadIValue ← at_index values PAYLOAD;
  TORCH_INTERNAL_ASSERT (isString payloadIValue)
    "Expected payload to be string" ;;
  payloadString ← toStringRef payloadIValue;
  let payload := list_byte_of_string payloadString in
  tensorsIValue ← at_index values TENSORS;
  TORCH_INTERNAL_ASSERT (isList tensorsIValue)
    "Expected tensorsIValue to be list" ;;
  tensors ← toTensorVector tensorsIValue;
  messageTypeIValue ← at_index values TYPE;
  TORCH_INTERNAL_ASSERT (isInt messageTypeIValue)
    "Expected messageTypeIValue to be int." ;;
  messageTypeInt ← toInt messageTypeIValue;
  let messageType := static_cast_MessageType messageTypeInt in
  messageIdIValue ← at_index values ID;
  TORCH_INTERNAL_ASSERT (isInt messageIdIValue)
    "Expected messageIdIValue to be int." ;;
  messageId ← toInt messageIdIValue;
  Ok (Message_4 payload tensors messageType messageId).

(** [createExceptionResponse(const std::string&, int64_t)] *)
Definition createExceptionResponse (exceptionStr : string) (id : Z)
    : Message :=
  let payload := list_byte_of_string exceptionStr in
  Message_4 payload [] (value EXCEPTION) id.

(** [createExceptionResponse(const std::exception&, int64_t)] *)
Definition createExceptionResponse_e {E : Type} `{std_exception E}
    (e : E) (id : Z) : Message :=
  createExceptionResponse (what e) id.

End message_cpp.

(** ** Message objects

    The member functions that change a [Message] work on objects, and two
    references may name one object ([m = m], [m = std::move(m)]).  A store
    maps the address of each live object to its current fields.
    [heap_left] counts the buffer allocations that still succeed: copying a
    [std::vector] that is not empty allocates, and throws [std::bad_alloc]
    when none is left. *)

Abbreviation loc := positive.

Record Store : Type := mkStore {
  objects : gmap loc Message;
  heap_left : nat
}.

Inductive outcome (A : Type) : Type :=
| Returns (a : A) (st : Store)
| Throws (e : exception) (st : Store)
| Undef.

Arguments Returns {A} a st.
Arguments Throws {A} e st.
Arguments Undef {A}.

Definition M (A : Type) : Type := Store -> outcome A.

#[global] Instance M_ret : MRet M := fun A a st => Returns a st.
#[global] Instance M_bind : MBind M := fun A B f c st =>
  match c st with
  | Returns a st' => f a st'
  | Throws e st' => Throws e st'
  | Undef => Undef
  end.

(** Reading and writing through a reference; a reference to an object that
    is not live is undefined. *)
Definition load (l : loc) : M Message := fun st =>
  match objects st !! l with
  | Some m => Returns m st
  | None => Undef
  end.

Definition store (l : loc) (m : Message) : M unit := fun st =>
  match objects st !! l with
  | Some _ => Returns tt (mkStore (<[l := m]> (objects st)) (heap_left st))
  | None => Undef
  end.

(** A new object (a temporary, a local, a return value) gets an address no
    live object has. *)
Definition new (m : Message) : M loc := fun st =>
  let l := fresh (dom (objects st)) in
  Returns l (mkStore (<[l := m]> (objects st)) (heap_left st)).

(** The end of an object's lifetime. *)
Definition destroy (l : loc) : M unit := fun st =>
  match objects st !! l with
  | Some _ => Returns tt (mkStore (delete l (objects st)) (heap_left st))
  | None => Undef
  end.

(** The buffers a vector with these elements holds: an empty vector has
    none. *)
Definition buffers_of {A : Type} (v : list A) : nat :=
  match v with
  | [] => 0
  | _ :: _ => 1
  end.

(** Copy construction of a [std::vector]: a new buffer with the same
    elements in the same order, or [std::bad_alloc]; the copy of an empty
    vector requests no storage and cannot fail. *)
Definition copy_vector {A : Type} (v : list A) : M (list A) := fun st =>
  if (buffers_of v <=? heap_left st)%nat
  then Returns v (mkStore (objects st) (heap_left st - buffers_of v))
  else Throws bad_alloc st.

(** The buffers the copies of the two vectors of an envelope take. *)
Definition copies_cost (m : Message) : nat :=
  buffers_of (payload_ m) + buffers_of (tensors_ m).

Definition with_payload (m : Message) (v : list byte) : Message :=
  mkMessage v (tensors_ m) (type_ m) (id_ m).
Definition with_tensors (m : Message) (v : list Tensor) : Message :=
  mkMessage (payload_ m) v (type_ m) (id_ m).
Definition with_type (m : Message) (t : MessageType) : Message :=
  mkMessage (payload_ m) (tensors_ m) t (id_ m).
Definition with_id (m : Message) (i : Z) : Message :=
  mkMessage (payload_ m) (tensors_ m) (type_ m) i.

Definition get {A : Type} (field : Message -> A) (l : loc) : M A :=
  m ← load l; mret (field m).
Definition set {A : Type} (update : Message -> A -> Message) (l : loc)
    (a : A) : M unit :=
  m ← load l; store l (update m a).

(** Move construction of a [std::vector] from the member [field] of the
    object at [l]: the new vector takes the buffer and the member is left
    empty. *)
Definition take {A : Type} (field : Message -> list A)
    (update : Message -> list A -> Message) (l : loc) : M (list A) :=
  v ← get field l; set update l [] ;; mret v.

(** [std::swap(a.field, b.field)] *)
Definition std_swap {A : Type} (field : Message -> A)
    (update : Message -> A -> Message) (a b : loc) : M unit :=
  x ← get field a; y ← get field b; set update a y ;; set update b x.

(** [Message::Message(const Message& other) = default]: the members are
    copied in the order of their declaration. *)
Definition Message_copy (other : loc) : M loc :=
  o ← load other;
  payload ← copy_vector (payload_ o);
  tensors ← copy_vector (tensors_ o);
  new (mkMessage payload tensors (type_ o) (id_ o)).

(** [Message::Message(Message&& other) noexcept = default] *)
Definition Message_move (other : loc) : M loc :=
  payload ← take payload_ with_payload other;
  tensors ← take tensors_ with_tensors other;
  type ← get type_ other;
  id ← get id_ other;
  new (mkMessage payload tensors type id).

(** [Message::swap] *)
Definition swap (this rhs : loc) : M unit :=
  std_swap payload_ with_payload this rhs ;;
  std_swap tensors_ with_tensors this rhs ;;
  std_swap type_ with_type this rhs ;;
  std_swap id_ with_id this rhs.

(** [Message::operator=(Message const& rhs) &]: the two vectors are copied
    into locals, a temporary is built from the locals (moved), [rhs.type_]
    and [rhs.id_], the temporary is swapped with [*this] and destroyed at
    the end of the statement. *)
Definition operator_assign (this rhs : loc) : M unit :=
  payload ← (r ← load rhs; copy_vector (payload_ r));
  tensors ← (r ← load rhs; copy_vector (tensors_ r));
  type ← get type_ rhs;
  id ← get id_ rhs;
  tmp ← new (Message_4 payload tensors type id);
  swap tmp this ;;
  destroy tmp.

(** [Message::operator=(Message&& rhs) &]: [rhs.type_] and [rhs.id_] are
    read for the call; the constructor then moves [rhs.payload_] and
    [rhs.tensors_] into the temporary, which is swapped with [*this] and
    destroyed at the end of the statement. *)
Definition operator_assign_move (this rhs : loc) : M unit :=
  type ← get type_ rhs;
  id ← get id_ rhs;
  payload ← take payload_ with_payload rhs;
  tensors ← take tensors_ with_tensors rhs;
  tmp ← new (Message_4 payload tensors type id);
  swap tmp this ;;
  destroy tmp.

(** [Message::setId] *)
Definition setId (this : loc) (id : Z) : M unit :=
  set with_id this id.

(** A write through the reference [Message::payload()] returns, or through
    [Message::tensors()]. *)
Definition write_payload (this : loc) (bytes : list byte) : M unit :=
  set with_payload this bytes.
Definition write_tensors (this : loc) (handles : list Tensor) : M unit :=
  set with_tensors this handles.

(** ** The kinds the specification lists as requests and as responses *)

Definition request_kinds : list Enumerator :=
  [ SCRIPT_CALL; PYTHON_CALL;
    SCRIPT_REMOTE_CALL; PYTHON_REMOTE_CALL;
    SCRIPT_RREF_FETCH_CALL; PYTHON_RREF_FETCH_CALL;
    RREF_USER_DELETE; RREF_CHILD_ACCEPT; RREF_FORK_REQUEST;
    BACKWARD_AUTOGRAD_REQ; FORWARD_AUTOGRAD_REQ;
    CLEANUP_AUTOGRAD_CONTEXT_REQ;
    RUN_WITH_PROFILING_REQ ].

Definition response_kinds : list Enumerator :=
  [ SCRIPT_RET; PYTHON_RET;
    REMOTE_RET;
    SCRIPT_RREF_FETCH_RET; PYTHON_RREF_FETCH_RET;
    EXCEPTION;
    RREF_ACK;
    BACKWARD_AUTOGRAD_RESP; FORWARD_AUTOGRAD_RESP;
    CLEANUP_AUTOGRAD_CONTEXT_RESP;
    RUN_WITH_PROFILING_RESP ].

(** ** The two error kinds of the specification

    Both are raised by the same assertion macro; the diagnostic tells which
    assumption failed.  A type-validation error names a slot; for the
    handle list it is raised either by the codec (the slot is no list) or
    by the value system while it extracts the handles (an element is no
    handle). *)

Definition structural_validation_error (e : exception) : Prop :=
  e = c10_Error "Expected messageTuple to be of type tuple." \/
  e = c10_Error "Expected 4 elements in tuple.".

Definition type_validation_error (slot : nat) (e : exception) : Prop :=
  match slot with
  | 0%nat => e = c10_Error "Expected payload to be string"
  | 1%nat => e = c10_Error "Expected tensorsIValue to be list" \/
             e = bad_tag "Tensor"
  | 2%nat => e = c10_Error "Expected messageTypeIValue to be int."
  | 3%nat => e = c10_Error "Expected messageIdIValue to be int."
  | _ => False
  end.

(** The dynamic type each slot of a message tuple must have. *)
Definition well_typed_slot (slot : nat) (v : IValue) : bool :=
  match slot with
  | 0%nat => isString v
  | 1%nat => match v with
             | IValue_List l => forallb isTensor l
             | _ => false
             end
  | _ => isInt v
  end.

(** The fields of a source after its two vectors were moved out. *)
Definition moved_from (m : Message) : Message :=
  mkMessage [] [] (type_ m) (id_ m).

(** ** A header to evaluate against

    One declaration of [MessageType] the file can be compiled against: the
    enumerators numbered apart from each other, an unsigned 32-bit
    underlying type whose values are promoted to [int], and -1 as the id
    of a message that has none. *)
Module SampleHeader.

Definition value (k : Enumerator) : Z :=
  match k with
  | SCRIPT_CALL => 0 | SCRIPT_RET => 1
  | PYTHON_CALL => 2 | PYTHON_RET => 3
  | SCRIPT_REMOTE_CALL => 4 | PYTHON_REMOTE_CALL => 5 | REMOTE_RET => 6
  | SCRIPT_RREF_FETCH_CALL => 7 | PYTHON_RREF_FETCH_CALL => 8
  | SCRIPT_RREF_FETCH_RET => 9 | PYTHON_RREF_FETCH_RET => 10
  | RREF_USER_DELETE => 11 | RREF_FORK_REQUEST => 12
  | RREF_CHILD_ACCEPT => 13 | RREF_ACK => 14
  | FORWARD_AUTOGRAD_REQ => 15 | FORWARD_AUTOGRAD_RESP => 16
  | BACKWARD_AUTOGRAD_REQ => 17 | BACKWARD_AUTOGRAD_RESP => 18
  | CLEANUP_AUTOGRAD_CONTEXT_REQ => 19 | CLEANUP_AUTOGRAD_CONTEXT_RESP => 20
  | RUN_WITH_PROFILING_REQ => 21 | RUN_WITH_PROFILING_RESP => 22
  | EXCEPTION => 55
  end.

(** The low 32 bits of the integer are stored; promoted to [int] they are
    the integer between -2^31 and 2^31 that has those bits. *)
Definition static_cast_MessageType (i : Z) : MessageType :=
  (i + 2 ^ 31) mod 2 ^ 32 - 2 ^ 31.

Definition unset_type : MessageType := 60.
Definition unset_id : Z := -1.

Record runtime_error : Type := { message : string }.
#[global] Instance runtime_error_exception : std_exception runtime_error :=
  message.

Definition h0 : Tensor := TensorHandle 10.
Definition h1 : Tensor := TensorHandle 11.
Definition h2 : Tensor := TensorHandle 12.

(** A call with three handles, and the return that answers it. *)
Definition call : Message :=
  mkMessage ["a"%byte; "d"%byte; "d"%byte] [h0; h1; h2]
    (value SCRIPT_CALL) 7.
Definition ret : Message :=
  mkMessage ["o"%byte; "k"%byte] [h2] (value SCRIPT_RET) 7.

(** Two live objects and room for two buffers; the same without room;
    one live object. *)
Definition target : loc := 1%positive.
Definition source : loc := 2%positive.
Definition two_objects : Store :=
  mkStore (<[target := ret]> (<[source := call]> ∅)) 2.
Definition two_objects_no_room : Store :=
  mkStore (<[target := ret]> (<[source := call]> ∅)) 1.
Definition one_object : Store :=
  mkStore (<[target := call]> ∅) 0.

(** A tuple whose slot 2 holds an integer no enumerator stands for, and
    tuples that are malformed in one slot. *)
Definition out_of_range : IValue :=
  IValue_Tuple [ IValue_String "x"; IValue_List [IValue_Tensor h0];
                 IValue_Int 1000; IValue_Int 7 ].
Definition three_slots : IValue :=
  IValue_Tuple [ IValue_String "x"; IValue_List []; IValue_Int 0 ].
Definition int_payload : IValue :=
  IValue_Tuple [ IValue_Int 5; IValue_List []; IValue_Int 0; IValue_Int 7 ].

(** A tuple with a negative tag, and a response without handles. *)
Definition negative_tag : IValue :=
  IValue_Tuple [ IValue_String "x"; IValue_List []; IValue_Int (-1);
                 IValue_Int 7 ].
Definition bare : Message :=
  mkMessage ["n"%byte; "o"%byte] [] (value EXCEPTION) 7.
Definition bare_one_buffer : Store :=
  mkStore (<[target := ret]> (<[source := bare]> ∅)) 1.
Definition bare_no_room : Store :=
  mkStore (<[target := ret]> (<[source := bare]> ∅)) 0.

End SampleHeader.

(** ** The remaining accessors

    [Message::payload() const] and [Message::tensors() const] read a member
    of a live object. *)
Definition payload (this : loc) : M (list byte) := get payload_ this.
Definition tensors (this : loc) : M (list Tensor) := get tensors_ this.

(** [Message::movePayload() &&] and [Message::moveTensors() &&] return an
    rvalue reference to the member and move nothing themselves.  A
    reference to a member is the address of the object. *)
Definition movePayload (this : loc) : M loc := _ ← load this; mret this.
Definition moveTensors (this : loc) : M loc := _ ← load this; mret this.

(** A vector initialised from such a reference is move constructed. *)
Definition vector_from_payload (r : loc) : M (list byte) :=
  take payload_ with_payload r.
Definition vector_from_tensors (r : loc) : M (list Tensor) :=
  take tensors_ with_tensors r.

(** [auto p = std::move(m).movePayload(); auto t = std::move(m).moveTensors();] *)
Definition extract (this : loc) : M (list byte * list Tensor) :=
  r ← movePayload this;
  p ← vector_from_payload r;
  r' ← moveTensors this;
  t ← vector_from_tensors r';
  mret (p, t).

(** * Properties *)

(** ** The tuple codec *)

Lemma size_diagnostic :
  "Expected " +:+ pretty SIZE +:+ " elements in tuple."
  = "Expected 4 elements in tuple.".
Proof. reflexivity. Qed.

Lemma toTensors_map (l : list Tensor) :
  toTensors (map IValue_Tensor l) = Ok l.
Proof.
  induction l as [|t l IH]; simpl; [reflexivity|].
  rewrite IH. reflexivity.
Qed.

Lemma toTensors_forallb (l : list IValue) :
  forallb isTensor l = true -> exists ts, toTensors l = Ok ts /\ l = map IValue_Tensor ts.
Proof.
  induction l as [|v l IH]; simpl; intros H.
  - exists []. split; reflexivity.
  - apply andb_true_iff in H as [Hv Hl].
    destruct (IH Hl) as (ts & Hts & ->).
    destruct v; try discriminate. simpl.
    rewrite toTensors_map. exists (t :: ts). split; reflexivity.
Qed.

Lemma toTensors_not_forallb (l : list IValue) :
  forallb isTensor l = false -> toTensors l = Throw (bad_tag "Tensor").
Proof.
  induction l as [|v l IH]; simpl; intros H; [discriminate|].
  destruct v; try reflexivity. simpl in H.
  rewrite (IH H). reflexivity.
Qed.

Section codec.

Variable static_cast_MessageType : Z -> MessageType.

(** A value that is no tuple fails the first assertion. *)
Lemma fromIValueTuple_not_tuple (v : IValue) :
  isTuple v = false ->
  fromIValueTuple static_cast_MessageType v
  = Throw (c10_Error "Expected messageTuple to be of type tuple.").
Proof. destruct v; simpl; intros H; try reflexivity. discriminate. Qed.

(** A tuple of another size than four fails the second one. *)
Lemma fromIValueTuple_wrong_size (l : list IValue) :
  length l <> SIZE ->
  fromIValueTuple static_cast_MessageType (IValue_Tuple l)
  = Throw (c10_Error "Expected 4 elements in tuple.").
Proof.
  intros H. unfold fromIValueTuple. simpl.
  destruct (Nat.eqb_spec (length l) SIZE) as [E|_]; [contradiction|].
  reflexivity.
Qed.

(** On a tuple of four values the slots are checked in the order payload,
    tensors, type, id; the first one of the wrong type raises. *)
Lemma fromIValueTuple_bad_payload (a b c d : IValue) :
  isString a = false ->
  fromIValueTuple static_cast_MessageType (IValue_Tuple [a; b; c; d])
  = Throw (c10_Error "Expected payload to be string").
Proof. destruct a; intros H; try reflexivity. discriminate. Qed.

Lemma fromIValueTuple_bad_tensors (a b c d : IValue) :
  isString a = true -> isList b = false ->
  fromIValueTuple static_cast_MessageType (IValue_Tuple [a; b; c; d])
  = Throw (c10_Error "Expected tensorsIValue to be list").
Proof.
  destruct a; intros Ha; try discriminate.
  destruct b; intros Hb; try reflexivity. discriminate.
Qed.

Lemma fromIValueTuple_bad_handle (a c d : IValue) (l : list IValue) :
  isString a = true -> forallb isTensor l = false ->
  fromIValueTuple static_cast_MessageType
    (IValue_Tuple [a; IValue_List l; c; d])
  = Throw (bad_tag "Tensor").
Proof.
  destruct a; intros Ha Hl; try discriminate.
  unfold fromIValueTuple. simpl.
  rewrite (toTensors_not_forallb l Hl). reflexivity.
Qed.

Lemma fromIValueTuple_bad_type (a b c d : IValue) :
  isString a = true -> well_typed_slot TENSORS b = true ->
  isInt c = false ->
  fromIValueTuple static_cast_MessageType (IValue_Tuple [a; b; c; d])
  = Throw (c10_Error "Expected messageTypeIValue to be int.").
Proof.
  destruct a; intros Ha; try discriminate.
  destruct b; intros Hb; try discriminate.
  destruct (toTensors_forallb elems Hb) as (ts & Hts & _).
  intros Hc. unfold fromIValueTuple. simpl. rewrite Hts.
  destruct c; try reflexivity. discriminate.
Qed.

Lemma fromIValueTuple_bad_id (a b c d : IValue) :
  isString a = true -> well_typed_slot TENSORS b = true ->
  isInt c = true -> isInt d = false ->
  fromIValueTuple static_cast_MessageType (IValue_Tuple [a; b; c; d])
  = Throw (c10_Error "Expected messageIdIValue to be int.").
Proof.
  destruct a; intros Ha; try discriminate.
  destruct b; intros Hb; try discriminate.
  destruct (toTensors_forallb elems Hb) as (ts & Hts & _).
  destruct c; intros Hc; try discriminate.
  intros Hd. unfold fromIValueTuple. simpl. rewrite Hts.
  destruct d; try reflexivity. discriminate.
Qed.

(** A tuple of a string, a list of handles and two integers is accepted,
    whatever the integers are. *)
Lemma fromIValueTuple_well_typed (s : string) (ts : list Tensor) (t i : Z) :
  fromIValueTuple static_cast_MessageType
    (IValue_Tuple [ IValue_String s; IValue_List (map IValue_Tensor ts);
                    IValue_Int t; IValue_Int i ])
  = Ok (mkMessage (list_byte_of_string s) ts (static_cast_MessageType t) i).
Proof.
  unfold fromIValueTuple. simpl. rewrite toTensors_map. reflexivity.
Qed.

(** The conversion is total: it returns or throws. *)
Lemma fromIValueTuple_defined (v : IValue) :
  fromIValueTuple static_cast_MessageType v <> Undefined.
Proof.
  destruct v as [| | | | | |?|l]; try discriminate.
  destruct (Nat.eq_dec (length l) SIZE) as [E|E].
  - destruct l as [|a [|b [|c [|d [|? ?]]]]]; try discriminate. clear E.
    destruct (isString a) eqn:Ha;
      [|rewrite fromIValueTuple_bad_payload by done; discriminate].
    destruct (well_typed_slot TENSORS b) eqn:Hb.
    + destruct (isInt c) eqn:Hc;
        [|rewrite fromIValueTuple_bad_type by done; discriminate].
      destruct (isInt d) eqn:Hd;
        [|rewrite fromIValueTuple_bad_id by done; discriminate].
      destruct a, b, c, d; try discriminate.
      destruct (toTensors_forallb elems Hb) as (ts & _ & ->).
      rewrite fromIValueTuple_well_typed. discriminate.
    + destruct (isList b) eqn:Hl;
        [|rewrite fromIValueTuple_bad_tensors by done; discriminate].
      destruct b; try discriminate.
      rewrite fromIValueTuple_bad_handle by done. discriminate.
  - rewrite fromIValueTuple_wrong_size by done. discriminate.
Qed.

(** C1.  Round trip: converting an envelope to a tuple and back succeeds
    and gives the envelope again, equal in payload bytes, handle sequence
    (same handles in the same order), kind and id.  The kind of the
    envelope is a value of the enumeration type, that is, one the
    conversion to [MessageType] leaves as it is; the id may be any
    integer, the sentinel of an unset id included. *)
Theorem fromIValueTuple_toIValueTuple (m : Message) :
  static_cast_MessageType (type_ m) = type_ m ->
  fromIValueTuple static_cast_MessageType (toIValueTuple m) = Ok m /\
  (forall m', fromIValueTuple static_cast_MessageType (toIValueTuple m)
              = Ok m' ->
     payload_ m' = payload_ m /\ tensors_ m' = tensors_ m /\
     type_ m' = type_ m /\ id_ m' = id_ m).
Proof.
  intros Hkind.
  assert (E : fromIValueTuple static_cast_MessageType (toIValueTuple m)
              = Ok m).
  { unfold toIValueTuple. rewrite fromIValueTuple_well_typed.
    rewrite list_byte_of_string_of_list_byte, Hkind.
    destruct m; reflexivity. }
  split; [exact E|].
  intros m' E'. rewrite E in E'. injection E' as <-. auto.
Qed.

(** C2.  Malformed input is refused, never repaired: a value that is no
    tuple and a tuple of another size than four raise the two structural
    diagnostics; a tuple of four values with a slot of the wrong dynamic
    type (slot 0 no string, slot 1 no list, slot 2 or slot 3 no integer)
    raises a type-validation diagnostic that names a slot which holds a
    value of the wrong type, the first such slot in the order of the
    checks.  In each case the result is an exception, not an envelope. *)
Theorem fromIValueTuple_rejects_malformed (v : IValue) :
  (isTuple v = false ->
     fromIValueTuple static_cast_MessageType v
     = Throw (c10_Error "Expected messageTuple to be of type tuple.") /\
     structural_validation_error
       (c10_Error "Expected messageTuple to be of type tuple.")) /\
  (forall l, v = IValue_Tuple l -> length l <> 4%nat ->
     fromIValueTuple static_cast_MessageType v
     = Throw (c10_Error "Expected 4 elements in tuple.") /\
     structural_validation_error
       (c10_Error "Expected 4 elements in tuple.")) /\
  (forall a b c d, v = IValue_Tuple [a; b; c; d] ->
     isString a && isList b && isInt c && isInt d = false ->
     exists e slot x,
       fromIValueTuple static_cast_MessageType v = Throw e /\
       type_validation_error slot e /\
       [a; b; c; d] !! slot = Some x /\
       well_typed_slot slot x = false /\
       (forall j y, (j < slot)%nat -> [a; b; c; d] !! j = Some y ->
          well_typed_slot j y = true)).
Proof.
  split; [|split].
  - intros H. split; [by apply fromIValueTuple_not_tuple|by left].
  - intros l -> H. split; [by apply fromIValueTuple_wrong_size|by right].
  - intros a b c d -> H.
    destruct (isString a) eqn:Ha.
    2:{ exists (c10_Error "Expected payload to be string"), 0%nat, a.
        rewrite fromIValueTuple_bad_payload by done.
        repeat split; try done. intros j y Hj. lia. }
    destruct (isList b) eqn:Hl.
    2:{ exists (c10_Error "Expected tensorsIValue to be list"), 1%nat, b.
        rewrite fromIValueTuple_bad_tensors by done.
        repeat split; try done.
        - by left.
        - destruct b; try done.
        - intros [|j] y Hj Hy; [by injection Hy as <-|lia]. }
    destruct (well_typed_slot TENSORS b) eqn:Hb.
    2:{ exists (bad_tag "Tensor"), 1%nat, b.
        destruct b; try discriminate.
        rewrite fromIValueTuple_bad_handle by done.
        repeat split; try done.
        - by right.
        - intros [|j] y Hj Hy; [by injection Hy as <-|lia]. }
    destruct (isInt c) eqn:Hc.
    2:{ exists (c10_Error "Expected messageTypeIValue to be int."), 2%nat, c.
        rewrite fromIValueTuple_bad_type by done.
        repeat split; try done.
        intros [|[|j]] y Hj Hy; [by injection Hy as <-|by injection Hy as <-|lia]. }
    destruct (isInt d) eqn:Hd; [discriminate|].
    exists (c10_Error "Expected messageIdIValue to be int."), 3%nat, d.
    rewrite fromIValueTuple_bad_id by done.
    repeat split; try done.
    intros [|[|[|j]]] y Hj Hy;
      [by injection Hy as <-|by injection Hy as <-|by injection Hy as <-|lia].
Qed.

(** C3, as the code has it.  The integer of slot 2 is not compared with
    the enumerators: a tuple of a string, a list of handles and two
    integers is converted whatever the integer of slot 2 is, and the kind
    of the envelope is that integer converted to [MessageType]. *)
Theorem fromIValueTuple_accepts_any_tag
    (s : string) (ts : list Tensor) (t i : Z) :
  exists m,
    fromIValueTuple static_cast_MessageType
      (IValue_Tuple [ IValue_String s; IValue_List (map IValue_Tensor ts);
                      IValue_Int t; IValue_Int i ]) = Ok m /\
    type_ m = static_cast_MessageType t /\
    payload_ m = list_byte_of_string s /\ tensors_ m = ts /\ id_ m = i.
Proof.
  eexists. split; [apply fromIValueTuple_well_typed|]. auto.
Qed.

End codec.

(** ** Classification and the exception response *)

Section classification.

Variable value : Enumerator -> Z.

(** The enumerators of message.h stand for different integers. *)
Hypothesis value_inj : forall a b : Enumerator, value a = value b -> a = b.

Lemma isRequest_elim (m : Message) :
  isRequest value m = true ->
  exists k, In k request_kinds /\ type_ m = value k.
Proof.
  unfold isRequest. rewrite !orb_true_iff, !Z.eqb_eq.
  intros H. repeat destruct H as [H|H];
    (eexists; split; [|symmetry; exact H]); simpl; tauto.
Qed.

Lemma isResponse_elim (m : Message) :
  isResponse value m = true ->
  exists k, In k response_kinds /\ type_ m = value k.
Proof.
  unfold isResponse. rewrite !orb_true_iff, !Z.eqb_eq.
  intros H. repeat destruct H as [H|H];
    (eexists; split; [|symmetry; exact H]); simpl; tauto.
Qed.

Lemma isRequest_intro (m : Message) (k : Enumerator) :
  In k request_kinds -> type_ m = value k -> isRequest value m = true.
Proof.
  intros Hk Hm. unfold isRequest. rewrite !orb_true_iff, !Z.eqb_eq.
  rewrite Hm. simpl in Hk.
  repeat (destruct Hk as [<-|Hk]; [tauto|]). contradiction.
Qed.

Lemma isResponse_intro (m : Message) (k : Enumerator) :
  In k response_kinds -> type_ m = value k -> isResponse value m = true.
Proof.
  intros Hk Hm. unfold isResponse. rewrite !orb_true_iff, !Z.eqb_eq.
  rewrite Hm. simpl in Hk.
  repeat (destruct Hk as [<-|Hk]; [tauto|]). contradiction.
Qed.

Lemma request_response_kinds_apart (k : Enumerator) :
  In k request_kinds -> In k response_kinds -> False.
Proof.
  simpl. intros Hq Hp.
  repeat (destruct Hq as [<-|Hq]; [intuition discriminate|]).
  contradiction.
Qed.

(** No envelope is both, whatever integer its kind holds. *)
Lemma isRequest_isResponse_apart (m : Message) :
  isRequest value m = true -> isResponse value m = true -> False.
Proof.
  intros Hq Hp.
  destruct (isRequest_elim m Hq) as (k & Hk & Ek).
  destruct (isResponse_elim m Hp) as (k' & Hk' & Ek').
  assert (k = k') as <- by (apply value_inj; congruence).
  exact (request_response_kinds_apart k Hk Hk').
Qed.

(** C4.  For every kind of the enumeration, an envelope of that kind is
    not both a request and a response. *)
Theorem isRequest_isResponse_disjoint (k : Enumerator) (m : Message) :
  type_ m = value k ->
  ~ (isRequest value m = true /\ isResponse value m = true).
Proof.
  intros _ [Hq Hp]. exact (isRequest_isResponse_apart m Hq Hp).
Qed.

(** C5.  Every kind the specification lists as a request makes
    [isRequest] true, every kind it lists as a response makes
    [isResponse] true. *)
Theorem isRequest_isResponse_listed (k : Enumerator) (m : Message) :
  type_ m = value k ->
  (In k request_kinds -> isRequest value m = true) /\
  (In k response_kinds -> isResponse value m = true).
Proof.
  intros Hm. split; intros Hk.
  - exact (isRequest_intro m k Hk Hm).
  - exact (isResponse_intro m k Hk Hm).
Qed.

(** C6.  The exception response for a description [s] and an id has the
    exception kind, that id, no handles, and the bytes of [s] as payload;
    the overload for an error object gives the envelope of the object's
    description. *)
Theorem createExceptionResponse_fields (s : string) (i : Z) :
  type_ (createExceptionResponse value s i) = value EXCEPTION /\
  id_ (createExceptionResponse value s i) = i /\
  tensors_ (createExceptionResponse value s i) = [] /\
  payload_ (createExceptionResponse value s i) = list_byte_of_string s /\
  string_of_list_byte (payload_ (createExceptionResponse value s i)) = s /\
  (forall (E : Type) (ex : std_exception E) (e : E),
     createExceptionResponse_e value e i
     = createExceptionResponse value (what e) i).
Proof.
  repeat split. simpl. apply string_of_list_byte_of_string.
Qed.

End classification.

(** ** Objects: running the primitives *)

Lemma bind_Returns {A B : Type} (c : M A) (f : A -> M B) (st st' : Store)
    (a : A) :
  c st = Returns a st' -> (c ≫= f) st = f a st'.
Proof. intros H. unfold mbind, M_bind. rewrite H. reflexivity. Qed.

Lemma bind_Throws {A B : Type} (c : M A) (f : A -> M B) (st st' : Store)
    (e : exception) :
  c st = Throws e st' -> (c ≫= f) st = Throws e st'.
Proof. intros H. unfold mbind, M_bind. rewrite H. reflexivity. Qed.

Lemma fresh_dead (st : Store) :
  objects st !! fresh (dom (objects st)) = None.
Proof. apply not_elem_of_dom, is_fresh. Qed.

Lemma load_run (st : Store) (l : loc) (m : Message) :
  objects st !! l = Some m -> load l st = Returns m st.
Proof. intros H. unfold load. rewrite H. reflexivity. Qed.

Lemma get_run {A : Type} (field : Message -> A) (st : Store) (l : loc)
    (m : Message) :
  objects st !! l = Some m -> get field l st = Returns (field m) st.
Proof.
  intros H. unfold get. rewrite (bind_Returns _ _ _ _ _ (load_run _ _ _ H)).
  reflexivity.
Qed.

Lemma set_run {A : Type} (update : Message -> A -> Message) (st : Store)
    (l : loc) (m : Message) (a : A) :
  objects st !! l = Some m ->
  set update l a st
  = Returns tt (mkStore (<[l := update m a]> (objects st)) (heap_left st)).
Proof.
  intros H. unfold set. rewrite (bind_Returns _ _ _ _ _ (load_run _ _ _ H)).
  unfold store. rewrite H. reflexivity.
Qed.

Lemma take_run {A : Type} (field : Message -> list A)
    (update : Message -> list A -> Message) (st : Store) (l : loc)
    (m : Message) :
  objects st !! l = Some m ->
  take field update l st
  = Returns (field m)
      (mkStore (<[l := update m []]> (objects st)) (heap_left st)).
Proof.
  intros H. unfold take.
  rewrite (bind_Returns _ _ _ _ _ (get_run field _ _ _ H)).
  rewrite (bind_Returns _ _ _ _ _ (set_run update _ _ _ [] H)).
  reflexivity.
Qed.

Lemma copy_vector_run {A : Type} (v : list A) (st : Store) :
  (buffers_of v <= heap_left st)%nat ->
  copy_vector v st
  = Returns v (mkStore (objects st) (heap_left st - buffers_of v)).
Proof.
  intros H. unfold copy_vector.
  destruct (Nat.leb_spec (buffers_of v) (heap_left st)); [reflexivity|lia].
Qed.

Lemma copy_vector_fails {A : Type} (v : list A) (st : Store) :
  (heap_left st < buffers_of v)%nat -> copy_vector v st = Throws bad_alloc st.
Proof.
  intros H. unfold copy_vector.
  destruct (Nat.leb_spec (buffers_of v) (heap_left st)); [lia|reflexivity].
Qed.

Lemma copies_cost_le_2 (m : Message) : (copies_cost m <= 2)%nat.
Proof.
  unfold copies_cost. destruct (payload_ m), (tensors_ m); simpl; lia.
Qed.

(** Two inserts at [a] and [b] hide the ones made there before. *)
Lemma insert_pair_again (m : gmap loc Message) (a b : loc)
    (x y x' y' : Message) :
  <[b := y']> (<[a := x']> (<[b := y]> (<[a := x]> m)))
  = <[b := y']> (<[a := x']> m).
Proof.
  apply map_eq. intros i. rewrite !lookup_insert.
  repeat case_decide; reflexivity.
Qed.

(** Swapping one member of two different objects. *)
Lemma std_swap_run {A : Type} (field : Message -> A)
    (update : Message -> A -> Message) (st : Store) (a b : loc)
    (ma mb : Message) :
  a <> b -> objects st !! a = Some ma -> objects st !! b = Some mb ->
  std_swap field update a b st
  = Returns tt
      (mkStore (<[b := update mb (field ma)]>
                  (<[a := update ma (field mb)]> (objects st)))
         (heap_left st)).
Proof.
  intros Hab Ha Hb. unfold std_swap.
  rewrite (bind_Returns _ _ _ _ _ (get_run field _ _ _ Ha)).
  rewrite (bind_Returns _ _ _ _ _ (get_run field _ _ _ Hb)).
  rewrite (bind_Returns _ _ _ _ _ (set_run update _ _ _ (field mb) Ha)).
  erewrite set_run; [reflexivity|].
  simpl. rewrite lookup_insert_ne by done. exact Hb.
Qed.

(** [swap] exchanges the fields of two different objects and touches no
    other object. *)
Lemma swap_run (st : Store) (a b : loc) (ma mb : Message) :
  a <> b -> objects st !! a = Some ma -> objects st !! b = Some mb ->
  swap a b st
  = Returns tt
      (mkStore (<[b := ma]> (<[a := mb]> (objects st))) (heap_left st)).
Proof.
  intros Hab Ha Hb. unfold swap.
  rewrite (bind_Returns _ _ _ _ _
             (std_swap_run payload_ with_payload _ _ _ _ _ Hab Ha Hb)).
  erewrite bind_Returns; cycle 1.
  { apply (std_swap_run tensors_ with_tensors); [exact Hab| |]; simpl.
    - rewrite lookup_insert_ne by done. apply lookup_insert_eq.
    - apply lookup_insert_eq. }
  erewrite bind_Returns; cycle 1.
  { apply (std_swap_run type_ with_type); [exact Hab| |]; simpl.
    - rewrite lookup_insert_ne by done. apply lookup_insert_eq.
    - apply lookup_insert_eq. }
  erewrite std_swap_run; [|exact Hab| |]; simpl; cycle 1.
  { rewrite lookup_insert_ne by done. apply lookup_insert_eq. }
  { apply lookup_insert_eq. }
  rewrite !insert_pair_again.
  destruct ma, mb. reflexivity.
Qed.

(** ** Assignment *)

(** A temporary that is built at a fresh address, swapped with the live
    object [this] and destroyed leaves its fields in [this] and nothing
    else behind. *)
Lemma temporary_swap_destroy (st : Store) (this : loc) (mt tmp_fields : Message) :
  objects st !! this = Some mt ->
  (tmp ← new tmp_fields; swap tmp this ;; destroy tmp) st
  = Returns tt (mkStore (<[this := tmp_fields]> (objects st)) (heap_left st)).
Proof.
  intros Ht.
  pose proof (fresh_dead st) as Hfresh.
  set (tmp := fresh (dom (objects st))) in *.
  assert (Hne : tmp <> this) by congruence.
  erewrite bind_Returns; [|reflexivity]. fold tmp.
  erewrite bind_Returns; cycle 1.
  { apply (swap_run _ tmp this tmp_fields mt Hne); simpl.
    - apply lookup_insert_eq.
    - rewrite lookup_insert_ne by done. exact Ht. }
  unfold destroy. simpl.
  rewrite lookup_insert_ne, lookup_insert_eq by done.
  f_equal. f_equal.
  apply map_eq. intros i.
  rewrite lookup_delete, !lookup_insert.
  repeat case_decide; subst; congruence.
Qed.

(** Copy assignment with room for the copies. *)
Lemma operator_assign_run (st : Store) (this rhs : loc) (mt ms : Message) :
  objects st !! this = Some mt -> objects st !! rhs = Some ms ->
  (copies_cost ms <= heap_left st)%nat ->
  operator_assign this rhs st
  = Returns tt
      (mkStore (<[this := ms]> (objects st))
         (heap_left st - copies_cost ms)).
Proof.
  intros Ht Hs Hn. unfold copies_cost in Hn. unfold operator_assign.
  erewrite bind_Returns; cycle 1.
  { erewrite bind_Returns; [|apply load_run, Hs].
    apply copy_vector_run. lia. }
  erewrite bind_Returns; cycle 1.
  { erewrite bind_Returns; [|apply load_run, Hs].
    apply copy_vector_run. simpl. lia. }
  erewrite bind_Returns; [|apply get_run, Hs].
  erewrite bind_Returns; [|apply get_run, Hs].
  rewrite (temporary_swap_destroy _ this mt) by exact Ht.
  simpl. unfold copies_cost. destruct ms. simpl. do 2 f_equal. lia.
Qed.

(** Copy assignment without room: [std::bad_alloc] leaves the copy
    constructor of a vector before any object was written. *)
Lemma operator_assign_fails (st : Store) (this rhs : loc) (ms : Message) :
  objects st !! rhs = Some ms -> (heap_left st < copies_cost ms)%nat ->
  exists st', operator_assign this rhs st = Throws bad_alloc st' /\
              objects st' = objects st.
Proof.
  intros Hs Hn. unfold copies_cost in Hn. unfold operator_assign.
  destruct (le_lt_dec (buffers_of (payload_ ms)) (heap_left st)) as [Hp|Hp].
  - eexists. split.
    + erewrite bind_Returns; cycle 1.
      { erewrite bind_Returns; [|apply load_run, Hs].
        apply copy_vector_run, Hp. }
      apply bind_Throws. erewrite bind_Returns; [|apply load_run, Hs].
      apply copy_vector_fails. simpl. lia.
    + reflexivity.
  - exists st. split; [|reflexivity].
    apply bind_Throws. erewrite bind_Returns; [|apply load_run, Hs].
    apply copy_vector_fails, Hp.
Qed.

(** Move assignment: it cannot throw. *)
Lemma operator_assign_move_run (st : Store) (this rhs : loc)
    (mt ms : Message) :
  objects st !! this = Some mt -> objects st !! rhs = Some ms ->
  operator_assign_move this rhs st
  = Returns tt
      (mkStore (<[this := ms]> (<[rhs := moved_from ms]> (objects st)))
         (heap_left st)).
Proof.
  intros Ht Hs. unfold operator_assign_move.
  erewrite bind_Returns; [|apply get_run, Hs].
  erewrite bind_Returns; [|apply get_run, Hs].
  erewrite bind_Returns; [|apply take_run, Hs].
  erewrite bind_Returns; [|apply take_run; simpl; apply lookup_insert_eq].
  assert (Hlive : exists mt',
    <[rhs := with_tensors (with_payload ms []) []]>
      (<[rhs := with_payload ms []]> (objects st)) !! this = Some mt').
  { rewrite !lookup_insert. case_decide; eauto. }
  destruct Hlive as [mt' Ht'].
  erewrite temporary_swap_destroy by exact Ht'. simpl.
  f_equal. f_equal. destruct ms. unfold moved_from. simpl.
  apply map_eq. intros i. rewrite !lookup_insert.
  repeat case_decide; reflexivity.
Qed.

(** C7.  Copy assignment and move assignment give the target the same
    fields: after [t = s] and after [t = std::move(s)] the target holds the
    payload, the handles, the kind and the id the source held before, also
    when both name one object.  Copy assignment leaves the source as it
    was and every object but the target untouched.  Both build a temporary
    and swap it with the target, so nothing of the temporary is left; the
    only failure is [std::bad_alloc] from one of the two vector copies of
    copy assignment (the copy of a vector that is not empty, when no
    buffer is left for it), raised before the temporary exists, and it
    leaves the target with the fields it had; move assignment cannot
    fail.  Copy assignment returns as soon as there is a buffer for each
    vector of the source that is not empty. *)
Theorem assignment_copy_move_equivalent
    (st : Store) (t s : loc) (mt ms : Message) :
  objects st !! t = Some mt -> objects st !! s = Some ms ->
  ((2 <= heap_left st)%nat ->
     exists st', operator_assign t s st = Returns tt st' /\
       objects st' !! t = Some ms /\ objects st' !! s = Some ms /\
       (forall l, l <> t -> objects st' !! l = objects st !! l)) /\
  (exists st', operator_assign_move t s st = Returns tt st' /\
     objects st' !! t = Some ms /\
     (forall l, l <> t -> l <> s -> objects st' !! l = objects st !! l)) /\
  ((heap_left st < copies_cost ms)%nat ->
     exists st', operator_assign t s st = Throws bad_alloc st' /\
       objects st' = objects st) /\
  (forall e st', operator_assign t s st = Throws e st' ->
     e = bad_alloc /\ objects st' !! t = Some mt) /\
  (forall e st', operator_assign_move t s st <> Throws e st') /\
  ((copies_cost ms <= heap_left st)%nat ->
     exists st', operator_assign t s st = Returns tt st' /\
       objects st' !! t = Some ms /\ objects st' !! s = Some ms).
Proof.
  intros Ht Hs.
  assert (Hcopy : (copies_cost ms <= heap_left st)%nat ->
    operator_assign t s st
    = Returns tt
        (mkStore (<[t := ms]> (objects st)) (heap_left st - copies_cost ms)))
    by exact (operator_assign_run st t s mt ms Ht Hs).
  pose proof (copies_cost_le_2 ms) as Hcost.
  split; [|split; [|split; [|split; [|split]]]].
  - intros Hn. eexists. split; [apply Hcopy; lia|]. simpl.
    split; [apply lookup_insert_eq|]. split.
    + rewrite lookup_insert. case_decide; congruence.
    + intros l Hl. by rewrite lookup_insert_ne.
  - eexists. split; [exact (operator_assign_move_run st t s mt ms Ht Hs)|].
    simpl. split; [apply lookup_insert_eq|].
    intros l Hl Hl'. by rewrite !lookup_insert_ne.
  - intros Hn. exact (operator_assign_fails st t s ms Hs Hn).
  - intros e st' H.
    destruct (le_lt_dec (copies_cost ms) (heap_left st)) as [Hn|Hn].
    + rewrite (Hcopy Hn) in H. discriminate.
    + destruct (operator_assign_fails st t s ms Hs Hn) as (st2 & E & Ho).
      rewrite E in H. injection H as <- <-. by rewrite Ho.
  - intros e st' H.
    rewrite (operator_assign_move_run st t s mt ms Ht Hs) in H.
    discriminate.
  - intros Hn. eexists. split; [exact (Hcopy Hn)|]. simpl.
    split; [apply lookup_insert_eq|].
    rewrite lookup_insert. case_decide; congruence.
Qed.

(** C10, as the code has it.  After [t = std::move(s)] with [t] and [s]
    two different objects, the source has an empty payload and no handles,
    and its kind and id are the ones it had before the move. *)
Theorem move_assignment_source
    (st : Store) (t s : loc) (mt ms : Message) :
  t <> s ->
  objects st !! t = Some mt -> objects st !! s = Some ms ->
  exists st' ms', operator_assign_move t s st = Returns tt st' /\
    objects st' !! s = Some ms' /\
    payload_ ms' = [] /\ tensors_ ms' = [] /\
    type_ ms' = type_ ms /\ id_ ms' = id_ ms.
Proof.
  intros Hne Ht Hs. eexists. exists (moved_from ms).
  split; [exact (operator_assign_move_run st t s mt ms Ht Hs)|].
  simpl. rewrite lookup_insert_ne, lookup_insert_eq by done. auto.
Qed.

(** Move assignment of an object to itself gives it back what the
    temporary took. *)
Lemma move_assignment_self (st : Store) (t : loc) (mt : Message) :
  objects st !! t = Some mt ->
  exists st', operator_assign_move t t st = Returns tt st' /\
    objects st' !! t = Some mt.
Proof.
  intros Ht. eexists.
  split; [exact (operator_assign_move_run st t t mt mt Ht Ht)|].
  simpl. apply lookup_insert_eq.
Qed.

(** C8.  [setId] stores the id: afterwards the accessor returns it, the
    payload, the handles and the kind of the envelope are the ones it had,
    and no other object and no other part of the store has changed. *)
Theorem setId_frame (st : Store) (l : loc) (m : Message) (v : Z) :
  objects st !! l = Some m ->
  exists st' m', setId l v st = Returns tt st' /\
    objects st' !! l = Some m' /\
    id m' = v /\
    payload_ m' = payload_ m /\ tensors_ m' = tensors_ m /\
    type m' = type m /\
    (forall l', l' <> l -> objects st' !! l' = objects st !! l') /\
    heap_left st' = heap_left st.
Proof.
  intros Hl. eexists. exists (with_id m v).
  split; [exact (set_run with_id st l m v Hl)|]. simpl.
  split; [apply lookup_insert_eq|].
  repeat split. intros l' Hne. by rewrite lookup_insert_ne.
Qed.

(** Copy construction with room for the copies. *)
Lemma Message_copy_run (st : Store) (other : loc) (o : Message) :
  objects st !! other = Some o -> (copies_cost o <= heap_left st)%nat ->
  Message_copy other st
  = Returns (fresh (dom (objects st)))
      (mkStore (<[fresh (dom (objects st)) := o]> (objects st))
         (heap_left st - copies_cost o)).
Proof.
  intros Ho Hn. unfold copies_cost in Hn. unfold Message_copy.
  erewrite bind_Returns; [|apply load_run, Ho].
  erewrite bind_Returns; [|apply copy_vector_run; lia].
  erewrite bind_Returns; [|apply copy_vector_run; simpl; lia].
  unfold new, copies_cost. simpl. destruct o. simpl. do 2 f_equal. lia.
Qed.

(** Move construction: the new object has the fields of the source, and the
    source is left with empty vectors. *)
Lemma Message_move_run (st : Store) (other : loc) (o : Message) :
  objects st !! other = Some o ->
  Message_move other st
  = Returns (fresh (dom (objects st)))
      (mkStore (<[fresh (dom (objects st)) := o]>
                  (<[other := moved_from o]> (objects st)))
         (heap_left st)).
Proof.
  intros Ho. unfold Message_move.
  erewrite bind_Returns; [|apply take_run, Ho].
  erewrite bind_Returns; [|apply take_run; simpl; apply lookup_insert_eq].
  erewrite bind_Returns; [|apply get_run; simpl; apply lookup_insert_eq].
  erewrite bind_Returns; [|apply get_run; simpl; apply lookup_insert_eq].
  unfold new. simpl. rewrite insert_insert_eq.
  assert (E : dom (<[other := with_tensors (with_payload o []) []]>
                     (objects st)) = dom (objects st)).
  { apply dom_insert_lookup_L. rewrite Ho. eauto. }
  rewrite E. destruct o. reflexivity.
Qed.

(** C9.  Copy construction gives a new object with the four fields of the
    original and buffers of its own: writing the payload (or the handle
    list) of the copy leaves the original as it was, and writing the
    payload (or the handle list) of the original leaves the copy as it
    was. *)
Theorem Message_copy_independent (st : Store) (m : loc) (vm : Message) :
  objects st !! m = Some vm -> (2 <= heap_left st)%nat ->
  exists c st', Message_copy m st = Returns c st' /\
    c <> m /\ objects st !! c = None /\
    objects st' !! c = Some vm /\ objects st' !! m = Some vm /\
    (forall bytes, exists st'',
       write_payload c bytes st' = Returns tt st'' /\
       objects st'' !! m = Some vm /\
       objects st'' !! c = Some (with_payload vm bytes)) /\
    (forall bytes, exists st'',
       write_payload m bytes st' = Returns tt st'' /\
       objects st'' !! c = Some vm /\
       objects st'' !! m = Some (with_payload vm bytes)) /\
    (forall handles, exists st'',
       write_tensors c handles st' = Returns tt st'' /\
       objects st'' !! m = Some vm /\
       objects st'' !! c = Some (with_tensors vm handles)) /\
    (forall handles, exists st'',
       write_tensors m handles st' = Returns tt st'' /\
       objects st'' !! c = Some vm /\
       objects st'' !! m = Some (with_tensors vm handles)).
Proof.
  intros Hm Hn.
  pose proof (copies_cost_le_2 vm) as Hcost.
  pose proof (Message_copy_run st m vm Hm ltac:(lia)) as Hrun.
  pose proof (fresh_dead st) as Hfresh.
  set (c := fresh (dom (objects st))) in *.
  assert (Hne : c <> m) by congruence.
  exists c. eexists. split; [exact Hrun|]. simpl.
  assert (Hc : <[c := vm]> (objects st) !! c = Some vm)
    by apply lookup_insert_eq.
  assert (Hm' : <[c := vm]> (objects st) !! m = Some vm)
    by (by rewrite lookup_insert_ne).
  repeat split; try done.
  - intros bytes. eexists. split; [by apply set_run|]. simpl.
    rewrite !lookup_insert. split; repeat case_decide; congruence.
  - intros bytes. eexists. split; [by apply set_run|]. simpl.
    rewrite !lookup_insert. split; repeat case_decide; congruence.
  - intros handles. eexists. split; [by apply set_run|]. simpl.
    rewrite !lookup_insert. split; repeat case_decide; congruence.
  - intros handles. eexists. split; [by apply set_run|]. simpl.
    rewrite !lookup_insert. split; repeat case_decide; congruence.
Qed.

(** ** The properties on the sample header *)

Lemma SampleHeader_value_inj (a b : Enumerator) :
  SampleHeader.value a = SampleHeader.value b -> a = b.
Proof. destruct a, b; simpl; intros H; try reflexivity; discriminate. Qed.

Lemma enumerators_complete (k : Enumerator) : In k enumerators.
Proof. destruct k; simpl; tauto. Qed.

Lemma fold_max_bound (value : Enumerator -> Z) (l : list Enumerator)
    (k : Enumerator) :
  In k l -> value k <= fold_right Z.max 0 (map value l).
Proof.
  induction l as [|x l IH]; simpl; [contradiction|].
  intros [->|H]; [lia|]. specialize (IH H). lia.
Qed.

(** Whatever the numbering, some integer is no enumerator. *)
Lemma tag_outside_enumeration (value : Enumerator -> Z) :
  exists t : Z, forall k, value k <> t.
Proof.
  exists (1 + fold_right Z.max 0 (map value enumerators)).
  intros k.
  pose proof (fold_max_bound value enumerators k (enumerators_complete k)).
  lia.
Qed.

Example createExceptionResponse_boom :
  createExceptionResponse SampleHeader.value "boom" 42
  = mkMessage ["b"%byte; "o"%byte; "o"%byte; "m"%byte] []
      (SampleHeader.value EXCEPTION) 42 /\
  createExceptionResponse_e SampleHeader.value
    {| SampleHeader.message := "boom" |} 42
  = createExceptionResponse SampleHeader.value "boom" 42.
Proof. split; reflexivity. Qed.

Lemma fromIValueTuple_toIValueTuple_witness :
  SampleHeader.static_cast_MessageType (type_ SampleHeader.call)
  = type_ SampleHeader.call /\
  fromIValueTuple SampleHeader.static_cast_MessageType
    (toIValueTuple SampleHeader.call) = Ok SampleHeader.call /\
  tensors_ SampleHeader.call
  = [SampleHeader.h0; SampleHeader.h1; SampleHeader.h2].
Proof.
  split; [reflexivity|]. split; [|reflexivity].
  apply (fromIValueTuple_toIValueTuple
           SampleHeader.static_cast_MessageType SampleHeader.call).
  reflexivity.
Defined.

Lemma fromIValueTuple_rejects_malformed_witness :
  isTuple (IValue_Int 3) = false /\
  fromIValueTuple SampleHeader.static_cast_MessageType (IValue_Int 3)
  = Throw (c10_Error "Expected messageTuple to be of type tuple.") /\
  fromIValueTuple SampleHeader.static_cast_MessageType
    SampleHeader.three_slots
  = Throw (c10_Error "Expected 4 elements in tuple.") /\
  isString (IValue_Int 5) && isList (IValue_List []) && isInt (IValue_Int 0)
    && isInt (IValue_Int 7) = false /\
  exists e slot x,
    fromIValueTuple SampleHeader.static_cast_MessageType
      SampleHeader.int_payload = Throw e /\
    type_validation_error slot e /\
    [IValue_Int 5; IValue_List []; IValue_Int 0; IValue_Int 7] !! slot
    = Some x /\
    well_typed_slot slot x = false.
Proof.
  split; [reflexivity|]. split; [|split; [|split; [reflexivity|]]].
  - apply (fromIValueTuple_rejects_malformed
             SampleHeader.static_cast_MessageType (IValue_Int 3)).
    reflexivity.
  - eapply (fromIValueTuple_rejects_malformed
              SampleHeader.static_cast_MessageType SampleHeader.three_slots);
      [reflexivity|]. simpl. lia.
  - destruct (fromIValueTuple_rejects_malformed
                SampleHeader.static_cast_MessageType SampleHeader.int_payload)
      as (_ & _ & H).
    destruct (H _ _ _ _ eq_refl eq_refl) as (e & slot & x & E & T & L & W & _).
    exists e, slot, x. auto.
Defined.

(** C3 fails on the code: 1000 is no enumerator, and the tuple that carries
    it in slot 2 is converted to an envelope of kind 1000. *)
Lemma out_of_range_tag_accepted :
  (forall k, SampleHeader.value k <> 1000) /\
  fromIValueTuple SampleHeader.static_cast_MessageType
    SampleHeader.out_of_range
  = Ok (mkMessage ["x"%byte] [SampleHeader.h0] 1000 7) /\
  ~ (exists e,
       fromIValueTuple SampleHeader.static_cast_MessageType
         SampleHeader.out_of_range = Throw e).
Proof.
  split; [|split].
  - intros k. destruct k; discriminate.
  - reflexivity.
  - intros [e H]. discriminate H.
Qed.

Lemma isRequest_isResponse_disjoint_witness :
  type_ SampleHeader.call = SampleHeader.value SCRIPT_CALL /\
  ~ (isRequest SampleHeader.value SampleHeader.call = true /\
     isResponse SampleHeader.value SampleHeader.call = true).
Proof.
  split; [reflexivity|].
  apply (isRequest_isResponse_disjoint SampleHeader.value
           SampleHeader_value_inj SCRIPT_CALL SampleHeader.call).
  reflexivity.
Defined.

Lemma isRequest_isResponse_listed_witness :
  type_ SampleHeader.call = SampleHeader.value SCRIPT_CALL /\
  In SCRIPT_CALL request_kinds /\
  isRequest SampleHeader.value SampleHeader.call = true /\
  type_ SampleHeader.ret = SampleHeader.value SCRIPT_RET /\
  In SCRIPT_RET response_kinds /\
  isResponse SampleHeader.value SampleHeader.ret = true.
Proof.
  split; [reflexivity|]. split; [simpl; tauto|].
  split; [|split; [reflexivity|split; [simpl; tauto|]]].
  - apply (isRequest_isResponse_listed SampleHeader.value SCRIPT_CALL
             SampleHeader.call); [reflexivity|]. simpl. tauto.
  - apply (isRequest_isResponse_listed SampleHeader.value SCRIPT_RET
             SampleHeader.ret); [reflexivity|]. simpl. tauto.
Defined.

Lemma assignment_copy_move_equivalent_witness :
  objects SampleHeader.two_objects !! SampleHeader.target
  = Some SampleHeader.ret /\
  objects SampleHeader.two_objects !! SampleHeader.source
  = Some SampleHeader.call /\
  (2 <= heap_left SampleHeader.two_objects)%nat /\
  (exists st',
     operator_assign SampleHeader.target SampleHeader.source
       SampleHeader.two_objects = Returns tt st' /\
     objects st' !! SampleHeader.target = Some SampleHeader.call /\
     objects st' !! SampleHeader.source = Some SampleHeader.call) /\
  (exists st',
     operator_assign_move SampleHeader.target SampleHeader.source
       SampleHeader.two_objects = Returns tt st' /\
     objects st' !! SampleHeader.target = Some SampleHeader.call) /\
  (heap_left SampleHeader.two_objects_no_room
   < copies_cost SampleHeader.call)%nat /\
  (exists st',
     operator_assign SampleHeader.target SampleHeader.source
       SampleHeader.two_objects_no_room = Throws bad_alloc st' /\
     objects st' !! SampleHeader.target = Some SampleHeader.ret) /\
  (copies_cost SampleHeader.bare
   <= heap_left SampleHeader.bare_one_buffer)%nat /\
  (exists st',
     operator_assign SampleHeader.target SampleHeader.source
       SampleHeader.bare_one_buffer = Returns tt st' /\
     objects st' !! SampleHeader.target = Some SampleHeader.bare).
Proof.
  split; [reflexivity|]. split; [reflexivity|]. split; [simpl; lia|].
  destruct (assignment_copy_move_equivalent SampleHeader.two_objects
              SampleHeader.target SampleHeader.source
              SampleHeader.ret SampleHeader.call eq_refl eq_refl)
    as (Hcopy & Hmove & _).
  destruct (assignment_copy_move_equivalent SampleHeader.two_objects_no_room
              SampleHeader.target SampleHeader.source
              SampleHeader.ret SampleHeader.call eq_refl eq_refl)
    as (_ & _ & Hfail & _).
  destruct (assignment_copy_move_equivalent SampleHeader.bare_one_buffer
              SampleHeader.target SampleHeader.source
              SampleHeader.ret SampleHeader.bare eq_refl eq_refl)
    as (_ & _ & _ & _ & _ & Hbare).
  split; [|split; [|split; [vm_compute; lia|split; [|split;
    [vm_compute; lia|]]]]].
  - destruct Hcopy as (st' & E & Ht & Hs & _); [simpl; lia|].
    exists st'. auto.
  - destruct Hmove as (st' & E & Ht & _). exists st'. auto.
  - destruct Hfail as (st' & E & Ho); [vm_compute; lia|].
    exists st'. split; [exact E|]. rewrite Ho. reflexivity.
  - destruct Hbare as (st' & E & Ht & _); [vm_compute; lia|].
    exists st'. auto.
Defined.

Lemma setId_frame_witness :
  objects SampleHeader.one_object !! SampleHeader.target
  = Some SampleHeader.call /\
  exists st' m',
    setId SampleHeader.target 99 SampleHeader.one_object = Returns tt st' /\
    objects st' !! SampleHeader.target = Some m' /\
    id m' = 99 /\ payload_ m' = payload_ SampleHeader.call.
Proof.
  split; [reflexivity|].
  destruct (setId_frame SampleHeader.one_object SampleHeader.target
              SampleHeader.call 99 eq_refl)
    as (st' & m' & E & Hl & Hid & Hp & _).
  exists st', m'. auto.
Defined.

Lemma Message_copy_independent_witness :
  objects SampleHeader.two_objects !! SampleHeader.source
  = Some SampleHeader.call /\
  (2 <= heap_left SampleHeader.two_objects)%nat /\
  exists c st',
    Message_copy SampleHeader.source SampleHeader.two_objects
    = Returns c st' /\
    c <> SampleHeader.source /\
    objects st' !! c = Some SampleHeader.call /\
    exists st'',
      write_payload c [] st' = Returns tt st'' /\
      objects st'' !! SampleHeader.source = Some SampleHeader.call.
Proof.
  split; [reflexivity|]. split; [simpl; lia|].
  destruct (Message_copy_independent SampleHeader.two_objects
              SampleHeader.source SampleHeader.call eq_refl)
    as (c & st' & E & Hne & _ & Hc & _ & Hw & _); [simpl; lia|].
  exists c, st'. repeat split; try assumption.
  destruct (Hw []) as (st'' & Ew & Hm & _). exists st''. auto.
Defined.

Lemma move_assignment_source_witness :
  SampleHeader.target <> SampleHeader.source /\
  objects SampleHeader.two_objects !! SampleHeader.target
  = Some SampleHeader.ret /\
  objects SampleHeader.two_objects !! SampleHeader.source
  = Some SampleHeader.call /\
  exists st' ms',
    operator_assign_move SampleHeader.target SampleHeader.source
      SampleHeader.two_objects = Returns tt st' /\
    objects st' !! SampleHeader.source = Some ms' /\
    payload_ ms' = [] /\ tensors_ ms' = [] /\
    type_ ms' = type_ SampleHeader.call /\ id_ ms' = id_ SampleHeader.call.
Proof.
  split; [discriminate|]. split; [reflexivity|]. split; [reflexivity|].
  apply (move_assignment_source SampleHeader.two_objects
           SampleHeader.target SampleHeader.source
           SampleHeader.ret SampleHeader.call);
    [discriminate|reflexivity|reflexivity].
Defined.

(** C10 fails on the code when source and target are one object: after
    [m = std::move(m)] the object has the payload and the handles it had. *)
Lemma self_move_assignment_keeps_payload :
  objects SampleHeader.one_object !! SampleHeader.target
  = Some SampleHeader.call /\
  payload_ SampleHeader.call <> [] /\
  tensors_ SampleHeader.call <> [] /\
  exists st',
    operator_assign_move SampleHeader.target SampleHeader.target
      SampleHeader.one_object = Returns tt st' /\
    objects st' !! SampleHeader.target = Some SampleHeader.call.
Proof.
  split; [reflexivity|]. split; [discriminate|]. split; [discriminate|].
  eexists. split; vm_compute; reflexivity.
Qed.

(** * Further properties of the code *)

(** ** The codec, both ways *)

Section codec_more.

Variable static_cast_MessageType : Z -> MessageType.

(** What an accepted value looks like. *)
Lemma fromIValueTuple_Ok_inv (v : IValue) (m : Message) :
  fromIValueTuple static_cast_MessageType v = Ok m ->
  exists s ts t i,
    v = IValue_Tuple [ IValue_String s; IValue_List (map IValue_Tensor ts);
                       IValue_Int t; IValue_Int i ] /\
    m = mkMessage (list_byte_of_string s) ts (static_cast_MessageType t) i.
Proof.
  intros H.
  destruct v as [| | | | | |?|l]; try discriminate H.
  destruct (Nat.eq_dec (length l) SIZE) as [E|E];
    [|rewrite fromIValueTuple_wrong_size in H by done; discriminate H].
  destruct l as [|a [|b [|c [|d [|? ?]]]]]; try discriminate E. clear E.
  destruct (isString a) eqn:Ha;
    [|rewrite fromIValueTuple_bad_payload in H by done; discriminate H].
  destruct (isList b) eqn:Hl;
    [|rewrite fromIValueTuple_bad_tensors in H by done; discriminate H].
  destruct b as [| | | | | |l|]; try discriminate Hl.
  destruct (forallb isTensor l) eqn:Hb;
    [|rewrite fromIValueTuple_bad_handle in H by done; discriminate H].
  destruct (isInt c) eqn:Hc;
    [|rewrite fromIValueTuple_bad_type in H by done; discriminate H].
  destruct (isInt d) eqn:Hd;
    [|rewrite fromIValueTuple_bad_id in H by done; discriminate H].
  destruct a, c, d; try discriminate.
  destruct (toTensors_forallb l Hb) as (ts & _ & ->).
  rewrite fromIValueTuple_well_typed in H. injection H as <-.
  eauto 10.
Qed.

(** X1.  The conversion never reads outside the vector of tuple elements
    and never lets an extraction check of the value system fire on a slot:
    it returns an envelope, or throws one of the two structural diagnostics
    or a type diagnostic of one of the four slots. *)
Theorem fromIValueTuple_outcomes (v : IValue) :
  (exists m, fromIValueTuple static_cast_MessageType v = Ok m) \/
  (exists e, fromIValueTuple static_cast_MessageType v = Throw e /\
     (structural_validation_error e \/
      exists slot, (slot < SIZE)%nat /\ type_validation_error slot e)).
Proof.
  destruct (isTuple v) eqn:Hv.
  2:{ right. eexists. split; [by apply fromIValueTuple_not_tuple|].
      left. by left. }
  destruct v as [| | | | | |?|l]; try discriminate Hv.
  destruct (Nat.eq_dec (length l) SIZE) as [E|E].
  2:{ right. eexists. split; [by apply fromIValueTuple_wrong_size|].
      left. by right. }
  destruct l as [|a [|b [|c [|d [|? ?]]]]]; try discriminate E.
  destruct (isString a) eqn:Ha.
  2:{ right. eexists. split; [by apply fromIValueTuple_bad_payload|].
      right. exists 0%nat. split; [unfold SIZE; lia|reflexivity]. }
  destruct (isList b) eqn:Hl.
  2:{ right. eexists. split; [by apply fromIValueTuple_bad_tensors|].
      right. exists 1%nat. split; [unfold SIZE; lia|by left]. }
  destruct b as [| | | | | |lb|]; try discriminate Hl.
  destruct (forallb isTensor lb) eqn:Hb.
  2:{ right. eexists. split; [by apply fromIValueTuple_bad_handle|].
      right. exists 1%nat. split; [unfold SIZE; lia|by right]. }
  destruct (isInt c) eqn:Hc.
  2:{ right. eexists. split; [by apply fromIValueTuple_bad_type|].
      right. exists 2%nat. split; [unfold SIZE; lia|reflexivity]. }
  destruct (isInt d) eqn:Hd.
  2:{ right. eexists. split; [by apply fromIValueTuple_bad_id|].
      right. exists 3%nat. split; [unfold SIZE; lia|reflexivity]. }
  left. destruct a, c, d; try discriminate.
  destruct (toTensors_forallb lb Hb) as (ts & _ & ->).
  rewrite fromIValueTuple_well_typed. eauto.
Qed.

(** X2.  The conversion accepts exactly the tuples of a string, a list of
    handles and two integers, and the envelope has the bytes of the
    string, the handles in the order of the list, the converted integer of
    slot 2 and the integer of slot 3. *)
Theorem fromIValueTuple_Ok_iff (v : IValue) (m : Message) :
  fromIValueTuple static_cast_MessageType v = Ok m <->
  exists s ts t i,
    v = IValue_Tuple [ IValue_String s; IValue_List (map IValue_Tensor ts);
                       IValue_Int t; IValue_Int i ] /\
    m = mkMessage (list_byte_of_string s) ts (static_cast_MessageType t) i.
Proof.
  split; [apply fromIValueTuple_Ok_inv|].
  intros (s & ts & t & i & -> & ->). apply fromIValueTuple_well_typed.
Qed.

(** X3.  Encoding a decoded envelope gives the tuple that was decoded,
    with the kind the envelope got in slot 2 (as the integer the kind is
    promoted to, which is what [IValue(type_)] holds): string, handle list
    and id come back as they were. *)
Theorem toIValueTuple_fromIValueTuple (v : IValue) (m : Message) :
  fromIValueTuple static_cast_MessageType v = Ok m ->
  exists l, v = IValue_Tuple l /\
    toIValueTuple m = IValue_Tuple (<[TYPE := IValue_Int (type_ m)]> l).
Proof.
  intros H.
  destruct (fromIValueTuple_Ok_inv v m H) as (s & ts & t & i & -> & ->).
  eexists. split; [reflexivity|].
  unfold toIValueTuple. simpl.
  rewrite string_of_list_byte_of_string. reflexivity.
Qed.

(** X4.  Every tuple [toIValueTuple] builds is accepted by
    [fromIValueTuple]; the envelope that comes back differs from the
    encoded one at most in the kind, which went through the conversion to
    [MessageType]. *)
Theorem fromIValueTuple_toIValueTuple_any (m : Message) :
  fromIValueTuple static_cast_MessageType (toIValueTuple m)
  = Ok (with_type m (static_cast_MessageType (type_ m))).
Proof.
  unfold toIValueTuple. rewrite fromIValueTuple_well_typed.
  rewrite list_byte_of_string_of_list_byte. reflexivity.
Qed.

(** X5.  When the conversion to [MessageType] is idempotent, an envelope
    obtained by decoding is a fixed point of encoding and decoding. *)
Theorem fromIValueTuple_stable (v : IValue) (m : Message) :
  (forall z, static_cast_MessageType (static_cast_MessageType z)
             = static_cast_MessageType z) ->
  fromIValueTuple static_cast_MessageType v = Ok m ->
  fromIValueTuple static_cast_MessageType (toIValueTuple m) = Ok m.
Proof.
  intros Hidem H.
  destruct (fromIValueTuple_Ok_inv v m H) as (s & ts & t & i & -> & ->).
  unfold toIValueTuple. rewrite fromIValueTuple_well_typed. simpl.
  rewrite list_byte_of_string_of_list_byte, Hidem. reflexivity.
Qed.

End codec_more.

(** X6.  Two envelopes with the same tuple are the same envelope. *)
Theorem toIValueTuple_inj (m m' : Message) :
  toIValueTuple m = toIValueTuple m' -> m = m'.
Proof.
  unfold toIValueTuple. intros H. injection H as Hp Ht Hk Hi.
  apply (f_equal list_byte_of_string) in Hp.
  rewrite !list_byte_of_string_of_list_byte in Hp.
  apply (f_equal toTensors) in Ht. rewrite !toTensors_map in Ht.
  injection Ht as Ht.
  destruct m, m'. simpl in *. congruence.
Qed.

(** ** Classification, both ways *)

Section classification_more.

Variable value : Enumerator -> Z.

Lemma request_or_response_kind (k : Enumerator) :
  In k request_kinds \/ In k response_kinds.
Proof. destruct k; simpl; tauto. Qed.

(** X7.  [isRequest] is true for the thirteen request kinds and for no
    other integer, [isResponse] for the eleven response kinds and for no
    other integer. *)
Theorem isRequest_isResponse_iff (m : Message) :
  (isRequest value m = true <->
   exists k, In k request_kinds /\ type_ m = value k) /\
  (isResponse value m = true <->
   exists k, In k response_kinds /\ type_ m = value k).
Proof.
  split; split.
  - apply isRequest_elim.
  - intros (k & Hk & Hm). exact (isRequest_intro value m k Hk Hm).
  - apply isResponse_elim.
  - intros (k & Hk & Hm). exact (isResponse_intro value m k Hk Hm).
Qed.

(** X8.  An envelope whose kind is the integer of no enumerator, as a tuple
    with an out-of-range tag gives, is neither a request nor a response. *)
Theorem unlisted_kind_neither (m : Message) :
  (forall k, value k <> type_ m) ->
  isRequest value m = false /\ isResponse value m = false.
Proof.
  intros Hout. split.
  - destruct (isRequest value m) eqn:E; [|reflexivity].
    destruct (isRequest_elim value m E) as (k & _ & Hk).
    destruct (Hout k). congruence.
  - destruct (isResponse value m) eqn:E; [|reflexivity].
    destruct (isResponse_elim value m E) as (k & _ & Hk).
    destruct (Hout k). congruence.
Qed.

Hypothesis value_inj : forall a b : Enumerator, value a = value b -> a = b.

(** X9.  Every enumerator message.cpp names is classified: an envelope of
    that kind is a request or a response, and exactly one of the two. *)
Theorem enumerator_request_xor_response (k : Enumerator) (m : Message) :
  type_ m = value k ->
  isRequest value m = negb (isResponse value m) /\
  (isRequest value m = true <-> In k request_kinds) /\
  (isResponse value m = true <-> In k response_kinds).
Proof.
  intros Hm.
  assert (Hq : isRequest value m = true <-> In k request_kinds).
  { split; [|intros Hk; exact (isRequest_intro value m k Hk Hm)].
    intros E. destruct (isRequest_elim value m E) as (k' & Hk' & Ek').
    assert (k = k') as <- by (apply value_inj; congruence). exact Hk'. }
  assert (Hp : isResponse value m = true <-> In k response_kinds).
  { split; [|intros Hk; exact (isResponse_intro value m k Hk Hm)].
    intros E. destruct (isResponse_elim value m E) as (k' & Hk' & Ek').
    assert (k = k') as <- by (apply value_inj; congruence). exact Hk'. }
  split; [|split; assumption].
  destruct (isRequest value m) eqn:Eq, (isResponse value m) eqn:Ep;
    try reflexivity.
  - destruct (request_response_kinds_apart k); tauto.
  - destruct (request_or_response_kind k) as [H|H];
      [apply Hq in H|apply Hp in H]; discriminate.
Qed.

(** X10.  What [createExceptionResponse] builds is a response and no
    request. *)
Theorem createExceptionResponse_isResponse (s : string) (i : Z) :
  isResponse value (createExceptionResponse value s i) = true /\
  isRequest value (createExceptionResponse value s i) = false.
Proof.
  assert (Hp : isResponse value (createExceptionResponse value s i) = true).
  { apply (isResponse_intro value _ EXCEPTION); [simpl; tauto|reflexivity]. }
  split; [exact Hp|].
  destruct (isRequest value (createExceptionResponse value s i)) eqn:E;
    [|reflexivity].
  destruct (isRequest_isResponse_apart value value_inj _ E Hp).
Qed.

End classification_more.

(** ** The exception response on the wire *)

Section exception_more.

Variable value : Enumerator -> Z.
Variable static_cast_MessageType : Z -> MessageType.

(** X11.  The tuple of an exception response carries the description
    itself in slot 0, an empty list, the exception kind and the id; when
    the exception kind is a value of [MessageType], decoding that tuple
    gives the exception response back. *)
Theorem createExceptionResponse_tuple (s : string) (i : Z) :
  toIValueTuple (createExceptionResponse value s i)
  = IValue_Tuple [ IValue_String s; IValue_List [];
                   IValue_Int (value EXCEPTION); IValue_Int i ] /\
  (static_cast_MessageType (value EXCEPTION) = value EXCEPTION ->
   fromIValueTuple static_cast_MessageType
     (toIValueTuple (createExceptionResponse value s i))
   = Ok (createExceptionResponse value s i)).
Proof.
  assert (E : toIValueTuple (createExceptionResponse value s i)
              = IValue_Tuple [ IValue_String s; IValue_List (map IValue_Tensor []);
                               IValue_Int (value EXCEPTION); IValue_Int i ]).
  { unfold toIValueTuple, createExceptionResponse. simpl.
    rewrite string_of_list_byte_of_string. reflexivity. }
  split; [exact E|].
  intros Hk. rewrite E, fromIValueTuple_well_typed, Hk. reflexivity.
Qed.

(** X12.  Different descriptions or different ids give different exception
    responses. *)
Theorem createExceptionResponse_inj (s s' : string) (i i' : Z) :
  createExceptionResponse value s i = createExceptionResponse value s' i' ->
  s = s' /\ i = i'.
Proof.
  unfold createExceptionResponse, Message_4. intros H.
  injection H as Hp Hi. split; [|exact Hi].
  apply (f_equal string_of_list_byte) in Hp.
  rewrite !string_of_list_byte_of_string in Hp. exact Hp.
Qed.

End exception_more.

(** ** Objects: swap, assignment to itself, construction *)

Lemma store_eta (st : Store) : mkStore (objects st) (heap_left st) = st.
Proof. destruct st. reflexivity. Qed.

Lemma insert_pair_id (m : gmap loc Message) (a b : loc) (x y : Message) :
  m !! a = Some x -> m !! b = Some y -> <[b := y]> (<[a := x]> m) = m.
Proof.
  intros Ha Hb. apply map_eq. intros i. rewrite !lookup_insert.
  repeat case_decide; subst; congruence.
Qed.

(** Swapping a member of an object with itself. *)
Lemma std_swap_self {A : Type} (field : Message -> A)
    (update : Message -> A -> Message) (st : Store) (a : loc)
    (ma : Message) :
  (forall m, update m (field m) = m) ->
  objects st !! a = Some ma ->
  std_swap field update a a st = Returns tt st.
Proof.
  intros Hid Ha. unfold std_swap.
  rewrite (bind_Returns _ _ _ _ _ (get_run field _ _ _ Ha)).
  rewrite (bind_Returns _ _ _ _ _ (get_run field _ _ _ Ha)).
  rewrite (bind_Returns _ _ _ _ _ (set_run update _ _ _ (field ma) Ha)).
  erewrite set_run; [|simpl; apply lookup_insert_eq]. simpl.
  rewrite !Hid, insert_insert_eq, (insert_id _ _ _ Ha).
  by rewrite store_eta.
Qed.

(** X13.  [swap] on two different live objects exchanges their four fields
    and changes nothing else. *)
Theorem swap_exchanges (st : Store) (a b : loc) (ma mb : Message) :
  a <> b -> objects st !! a = Some ma -> objects st !! b = Some mb ->
  exists st', swap a b st = Returns tt st' /\
    objects st' !! a = Some mb /\ objects st' !! b = Some ma /\
    (forall l, l <> a -> l <> b -> objects st' !! l = objects st !! l) /\
    heap_left st' = heap_left st.
Proof.
  intros Hab Ha Hb. eexists.
  split; [exact (swap_run st a b ma mb Hab Ha Hb)|]. simpl.
  split; [by rewrite lookup_insert_ne, lookup_insert_eq|].
  split; [apply lookup_insert_eq|].
  split; [|reflexivity].
  intros l Hla Hlb. by rewrite !lookup_insert_ne.
Qed.

(** X14.  Swapping twice gives the store back. *)
Theorem swap_swap (st : Store) (a b : loc) (ma mb : Message) :
  a <> b -> objects st !! a = Some ma -> objects st !! b = Some mb ->
  (swap a b ;; swap a b) st = Returns tt st.
Proof.
  intros Hab Ha Hb.
  rewrite (bind_Returns _ _ _ _ _ (swap_run st a b ma mb Hab Ha Hb)).
  erewrite swap_run; [|exact Hab|simpl..].
  2:{ rewrite lookup_insert_ne by done. apply lookup_insert_eq. }
  2:{ apply lookup_insert_eq. }
  simpl. rewrite insert_pair_again, (insert_pair_id _ a b ma mb Ha Hb).
  by rewrite store_eta.
Qed.

(** X15.  Swapping an object with itself changes nothing. *)
Theorem swap_self (st : Store) (a : loc) (ma : Message) :
  objects st !! a = Some ma -> swap a a st = Returns tt st.
Proof.
  intros Ha. unfold swap.
  rewrite (bind_Returns _ _ _ _ _
             (std_swap_self payload_ with_payload st a ma
                ltac:(by intros []) Ha)).
  rewrite (bind_Returns _ _ _ _ _
             (std_swap_self tensors_ with_tensors st a ma
                ltac:(by intros []) Ha)).
  rewrite (bind_Returns _ _ _ _ _
             (std_swap_self type_ with_type st a ma
                ltac:(by intros []) Ha)).
  exact (std_swap_self id_ with_id st a ma ltac:(by intros []) Ha).
Qed.

(** X16.  Copy assignment of an object to itself leaves every object as it
    was; it still copies the vectors, and needs a buffer for each one that
    is not empty. *)
Theorem copy_assignment_self (st : Store) (t : loc) (mt : Message) :
  objects st !! t = Some mt -> (copies_cost mt <= heap_left st)%nat ->
  operator_assign t t st
  = Returns tt (mkStore (objects st) (heap_left st - copies_cost mt)).
Proof.
  intros Ht Hn.
  rewrite (operator_assign_run st t t mt mt Ht Ht Hn).
  by rewrite (insert_id _ _ _ Ht).
Qed.

(** X17.  Move assignment of an object to itself leaves the whole store as
    it was. *)
Theorem move_assignment_self_unchanged (st : Store) (t : loc) (mt : Message) :
  objects st !! t = Some mt ->
  operator_assign_move t t st = Returns tt st.
Proof.
  intros Ht.
  rewrite (operator_assign_move_run st t t mt mt Ht Ht).
  rewrite insert_insert_eq, (insert_id _ _ _ Ht).
  by rewrite store_eta.
Qed.

(** X18.  Neither assignment leaves its temporary behind or ends the life
    of an object: the same addresses are live afterwards.  Move assignment
    allocates no buffer. *)
Theorem assignment_keeps_live_objects
    (st : Store) (t s : loc) (mt ms : Message) :
  objects st !! t = Some mt -> objects st !! s = Some ms ->
  (forall st', operator_assign t s st = Returns tt st' ->
     dom (objects st') = dom (objects st)) /\
  (forall st', operator_assign_move t s st = Returns tt st' ->
     dom (objects st') = dom (objects st) /\
     heap_left st' = heap_left st).
Proof.
  intros Ht Hs. split.
  - intros st' H.
    destruct (le_lt_dec (copies_cost ms) (heap_left st)) as [E|E].
    + rewrite (operator_assign_run st t s mt ms Ht Hs E) in H.
      injection H as <-. simpl.
      apply dom_insert_lookup_L. rewrite Ht. eauto.
    + destruct (operator_assign_fails st t s ms Hs E) as (st2 & H2 & _).
      rewrite H2 in H. discriminate.
  - intros st' H.
    rewrite (operator_assign_move_run st t s mt ms Ht Hs) in H.
    injection H as <-. simpl. split; [|reflexivity].
    rewrite dom_insert_lookup_L.
    + apply dom_insert_lookup_L. rewrite Hs. eauto.
    + rewrite lookup_insert. case_decide; eauto.
Qed.

(** X19.  Copy construction without a buffer for each vector of the source
    that is not empty throws [std::bad_alloc], and no object has been
    created or changed; with those buffers it returns a new object. *)
Theorem Message_copy_fails (st : Store) (other : loc) (o : Message) :
  objects st !! other = Some o ->
  ((heap_left st < copies_cost o)%nat ->
     exists st', Message_copy other st = Throws bad_alloc st' /\
       objects st' = objects st) /\
  ((copies_cost o <= heap_left st)%nat ->
     exists c st', Message_copy other st = Returns c st' /\
       objects st !! c = None /\ objects st' !! c = Some o).
Proof.
  intros Ho. split.
  - intros Hn. unfold copies_cost in Hn. unfold Message_copy.
    erewrite bind_Returns; [|apply load_run, Ho].
    destruct (le_lt_dec (buffers_of (payload_ o)) (heap_left st)) as [Hp|Hp].
    + eexists. split.
      * erewrite bind_Returns; [|apply copy_vector_run, Hp].
        apply bind_Throws, copy_vector_fails. simpl. lia.
      * reflexivity.
    + exists st. split; [|reflexivity].
      apply bind_Throws, copy_vector_fails, Hp.
  - intros Hn. eexists. eexists.
    split; [exact (Message_copy_run st other o Ho Hn)|]. simpl.
    split; [apply fresh_dead|apply lookup_insert_eq].
Qed.

(** X20.  Move construction cannot fail: the new object has the four
    fields of the source, the source keeps its kind and id and is left
    with an empty payload and no handles, and nothing else changes. *)
Theorem Message_move_transfers (st : Store) (other : loc) (o : Message) :
  objects st !! other = Some o ->
  exists c st', Message_move other st = Returns c st' /\
    objects st !! c = None /\
    objects st' !! c = Some o /\
    objects st' !! other = Some (moved_from o) /\
    (forall l, l <> c -> l <> other -> objects st' !! l = objects st !! l) /\
    heap_left st' = heap_left st.
Proof.
  intros Ho.
  pose proof (fresh_dead st) as Hfresh.
  exists (fresh (dom (objects st))). eexists.
  split; [exact (Message_move_run st other o Ho)|]. simpl.
  set (c := fresh (dom (objects st))) in *.
  assert (Hne : c <> other) by congruence.
  split; [exact Hfresh|].
  split; [apply lookup_insert_eq|].
  split; [by rewrite lookup_insert_ne, lookup_insert_eq|].
  split; [|reflexivity].
  intros l Hlc Hlo. by rewrite !lookup_insert_ne.
Qed.

(** X21.  [setId] overwrites: of two calls on one object the second
    decides, whatever the first stored. *)
Theorem setId_setId (st : Store) (l : loc) (m : Message) (v w : Z) :
  objects st !! l = Some m ->
  (setId l v ;; setId l w) st = setId l w st.
Proof.
  intros Hl. unfold setId.
  rewrite (bind_Returns _ _ _ _ _ (set_run with_id st l m v Hl)).
  erewrite set_run; [|simpl; apply lookup_insert_eq].
  rewrite (set_run with_id st l m w Hl). simpl.
  by rewrite insert_insert_eq.
Qed.

(** X22.  What is written through [payload()] or [tensors()] is what the
    const accessor reads afterwards; the read changes nothing, and the
    write leaves the other three fields and every other object as they
    were. *)
Theorem write_then_read (st : Store) (l : loc) (m : Message)
    (bytes : list byte) (handles : list Tensor) :
  objects st !! l = Some m ->
  (exists st', (write_payload l bytes ;; payload l) st = Returns bytes st' /\
     objects st' !! l = Some (mkMessage bytes (tensors_ m) (type_ m) (id_ m)) /\
     (forall l', l' <> l -> objects st' !! l' = objects st !! l')) /\
  (exists st', (write_tensors l handles ;; tensors l) st = Returns handles st' /\
     objects st' !! l = Some (mkMessage (payload_ m) handles (type_ m) (id_ m)) /\
     (forall l', l' <> l -> objects st' !! l' = objects st !! l')).
Proof.
  intros Hl. split; eexists.
  - split.
    + unfold write_payload, payload.
      rewrite (bind_Returns _ _ _ _ _ (set_run with_payload st l m bytes Hl)).
      erewrite get_run; [|simpl; apply lookup_insert_eq]. reflexivity.
    + simpl. split; [apply lookup_insert_eq|].
      intros l' Hne. by rewrite lookup_insert_ne.
  - split.
    + unfold write_tensors, tensors.
      rewrite (bind_Returns _ _ _ _ _ (set_run with_tensors st l m handles Hl)).
      erewrite get_run; [|simpl; apply lookup_insert_eq]. reflexivity.
    + simpl. split; [apply lookup_insert_eq|].
      intros l' Hne. by rewrite lookup_insert_ne.
Qed.

(** X23.  [movePayload] and [moveTensors] move nothing by themselves; the
    vectors initialised from what they return receive the payload bytes
    and the handles in their order, and the envelope is left with both
    vectors empty and its kind and id as they were. *)
Theorem extract_transfers (st : Store) (l : loc) (m : Message) :
  objects st !! l = Some m ->
  movePayload l st = Returns l st /\
  moveTensors l st = Returns l st /\
  extract l st
  = Returns (payload_ m, tensors_ m)
      (mkStore (<[l := moved_from m]> (objects st)) (heap_left st)).
Proof.
  intros Hl.
  assert (Hp : movePayload l st = Returns l st).
  { unfold movePayload. by rewrite (bind_Returns _ _ _ _ _ (load_run _ _ _ Hl)). }
  split; [exact Hp|]. split; [exact Hp|].
  unfold extract.
  rewrite (bind_Returns _ _ _ _ _ Hp).
  unfold vector_from_payload, vector_from_tensors.
  rewrite (bind_Returns _ _ _ _ _ (take_run payload_ with_payload _ _ _ Hl)).
  erewrite bind_Returns; cycle 1.
  { unfold moveTensors. erewrite bind_Returns; [reflexivity|].
    apply load_run. simpl. apply lookup_insert_eq. }
  erewrite bind_Returns; cycle 1.
  { apply take_run. simpl. apply lookup_insert_eq. }
  simpl. rewrite insert_insert_eq. destruct m. reflexivity.
Qed.

(** X24.  Building an envelope without an id and setting the id afterwards
    gives the object the constructor with an id builds. *)
Theorem Message_3_setId (unset_id : Z) (st : Store)
    (bytes : list byte) (handles : list Tensor) (kind : MessageType)
    (v : Z) :
  (l ← new (Message_3 unset_id bytes handles kind); setId l v ;; mret l) st
  = new (Message_4 bytes handles kind v) st.
Proof.
  unfold new at 1.
  erewrite bind_Returns; [|reflexivity].
  erewrite bind_Returns; cycle 1.
  { unfold setId. apply set_run. simpl. apply lookup_insert_eq. }
  unfold new, mret, M_ret. simpl. by rewrite insert_insert_eq.
Qed.

(** ** The further properties on the sample header *)

Lemma SampleHeader_cast_idem (z : Z) :
  SampleHeader.static_cast_MessageType
    (SampleHeader.static_cast_MessageType z)
  = SampleHeader.static_cast_MessageType z.
Proof.
  unfold SampleHeader.static_cast_MessageType.
  replace ((z + 2 ^ 31) mod 2 ^ 32 - 2 ^ 31 + 2 ^ 31)
    with ((z + 2 ^ 31) mod 2 ^ 32) by lia.
  rewrite Z.mod_mod by lia. reflexivity.
Qed.

Lemma SampleHeader_unset_type_unlisted (k : Enumerator) :
  SampleHeader.value k <> SampleHeader.unset_type.
Proof. destruct k; discriminate. Qed.

Lemma fromIValueTuple_Ok_iff_witness :
  fromIValueTuple SampleHeader.static_cast_MessageType
    SampleHeader.out_of_range
  = Ok (mkMessage ["x"%byte] [SampleHeader.h0] 1000 7).
Proof.
  apply (fromIValueTuple_Ok_iff SampleHeader.static_cast_MessageType).
  exists "x"%string, [SampleHeader.h0], 1000, 7. split; reflexivity.
Defined.

Lemma toIValueTuple_fromIValueTuple_witness :
  fromIValueTuple SampleHeader.static_cast_MessageType
    SampleHeader.negative_tag
  = Ok (mkMessage ["x"%byte] [] (-1) 7) /\
  exists l, SampleHeader.negative_tag = IValue_Tuple l /\
    toIValueTuple (mkMessage ["x"%byte] [] (-1) 7)
    = IValue_Tuple (<[TYPE := IValue_Int (-1)]> l).
Proof.
  split; [reflexivity|].
  apply (toIValueTuple_fromIValueTuple SampleHeader.static_cast_MessageType
           SampleHeader.negative_tag (mkMessage ["x"%byte] [] (-1) 7)).
  reflexivity.
Defined.

(** On the sample header a tag of -1 is encoded again as -1, and a tag of
    2^31 as -2^31: the integer in slot 2 is the promoted kind. *)
Example tags_encoded_again :
  (exists m,
     fromIValueTuple SampleHeader.static_cast_MessageType
       SampleHeader.negative_tag = Ok m /\
     toIValueTuple m = SampleHeader.negative_tag) /\
  (exists m,
     fromIValueTuple SampleHeader.static_cast_MessageType
       (IValue_Tuple [ IValue_String "x"; IValue_List [];
                       IValue_Int (2 ^ 31); IValue_Int 7 ]) = Ok m /\
     toIValueTuple m
     = IValue_Tuple [ IValue_String "x"; IValue_List [];
                      IValue_Int (- 2 ^ 31); IValue_Int 7 ]).
Proof. split; eexists; split; reflexivity. Qed.

Lemma fromIValueTuple_stable_witness :
  fromIValueTuple SampleHeader.static_cast_MessageType
    (toIValueTuple (mkMessage ["x"%byte] [SampleHeader.h0] 1000 7))
  = Ok (mkMessage ["x"%byte] [SampleHeader.h0] 1000 7).
Proof.
  apply (fromIValueTuple_stable SampleHeader.static_cast_MessageType
           SampleHeader.out_of_range _ SampleHeader_cast_idem).
  reflexivity.
Defined.

Lemma toIValueTuple_inj_witness :
  toIValueTuple SampleHeader.call
  = toIValueTuple
      (mkMessage ["a"%byte; "d"%byte; "d"%byte]
         [SampleHeader.h0; SampleHeader.h1; SampleHeader.h2] 0 7) /\
  SampleHeader.call
  = mkMessage ["a"%byte; "d"%byte; "d"%byte]
      [SampleHeader.h0; SampleHeader.h1; SampleHeader.h2] 0 7.
Proof.
  split; [reflexivity|].
  apply (toIValueTuple_inj SampleHeader.call). reflexivity.
Defined.

Lemma isRequest_isResponse_iff_witness :
  isRequest SampleHeader.value SampleHeader.call = true /\
  exists k, In k request_kinds /\
    type_ SampleHeader.call = SampleHeader.value k.
Proof.
  split; [reflexivity|].
  apply (isRequest_isResponse_iff SampleHeader.value SampleHeader.call).
  reflexivity.
Defined.

Lemma unlisted_kind_neither_witness :
  (forall k, SampleHeader.value k
             <> type_ (Message_default SampleHeader.unset_type
                         SampleHeader.unset_id)) /\
  isRequest SampleHeader.value
    (Message_default SampleHeader.unset_type SampleHeader.unset_id) = false /\
  isResponse SampleHeader.value
    (Message_default SampleHeader.unset_type SampleHeader.unset_id) = false.
Proof.
  split; [exact SampleHeader_unset_type_unlisted|].
  apply (unlisted_kind_neither SampleHeader.value).
  exact SampleHeader_unset_type_unlisted.
Defined.

Lemma enumerator_request_xor_response_witness :
  type_ SampleHeader.ret = SampleHeader.value SCRIPT_RET /\
  isRequest SampleHeader.value SampleHeader.ret
  = negb (isResponse SampleHeader.value SampleHeader.ret).
Proof.
  split; [reflexivity|].
  apply (enumerator_request_xor_response SampleHeader.value
           SampleHeader_value_inj SCRIPT_RET SampleHeader.ret).
  reflexivity.
Defined.

Lemma createExceptionResponse_isResponse_witness :
  isResponse SampleHeader.value
    (createExceptionResponse SampleHeader.value "boom" 42) = true /\
  isRequest SampleHeader.value
    (createExceptionResponse SampleHeader.value "boom" 42) = false.
Proof.
  apply (createExceptionResponse_isResponse SampleHeader.value
           SampleHeader_value_inj).
Defined.

Lemma createExceptionResponse_tuple_witness :
  SampleHeader.static_cast_MessageType (SampleHeader.value EXCEPTION)
  = SampleHeader.value EXCEPTION /\
  fromIValueTuple SampleHeader.static_cast_MessageType
    (toIValueTuple (createExceptionResponse SampleHeader.value "boom" 42))
  = Ok (createExceptionResponse SampleHeader.value "boom" 42).
Proof.
  split; [reflexivity|].
  apply (createExceptionResponse_tuple SampleHeader.value
           SampleHeader.static_cast_MessageType "boom" 42).
  reflexivity.
Defined.

Lemma createExceptionResponse_inj_witness :
  createExceptionResponse SampleHeader.value "boom" 42
  = mkMessage ["b"%byte; "o"%byte; "o"%byte; "m"%byte] [] 55 42 /\
  "boom"%string = String "b" (String "o" (String "o" (String "m" EmptyString)))
  /\ 42 = 42.
Proof.
  split; [reflexivity|].
  apply (createExceptionResponse_inj SampleHeader.value). reflexivity.
Defined.

Lemma swap_exchanges_witness :
  exists st',
    swap SampleHeader.target SampleHeader.source SampleHeader.two_objects
    = Returns tt st' /\
    objects st' !! SampleHeader.target = Some SampleHeader.call /\
    objects st' !! SampleHeader.source = Some SampleHeader.ret.
Proof.
  destruct (swap_exchanges SampleHeader.two_objects SampleHeader.target
              SampleHeader.source SampleHeader.ret SampleHeader.call)
    as (st' & E & Ha & Hb & _); [discriminate|reflexivity|reflexivity|].
  exists st'. auto.
Defined.

Lemma swap_swap_witness :
  (swap SampleHeader.target SampleHeader.source ;;
   swap SampleHeader.target SampleHeader.source) SampleHeader.two_objects
  = Returns tt SampleHeader.two_objects.
Proof.
  apply (swap_swap SampleHeader.two_objects SampleHeader.target
           SampleHeader.source SampleHeader.ret SampleHeader.call);
    [discriminate|reflexivity|reflexivity].
Defined.

Lemma swap_self_witness :
  swap SampleHeader.target SampleHeader.target SampleHeader.one_object
  = Returns tt SampleHeader.one_object.
Proof.
  apply (swap_self SampleHeader.one_object SampleHeader.target
           SampleHeader.call). reflexivity.
Defined.

Lemma copy_assignment_self_witness :
  (copies_cost SampleHeader.ret <= heap_left SampleHeader.two_objects)%nat /\
  operator_assign SampleHeader.target SampleHeader.target
    SampleHeader.two_objects
  = Returns tt (mkStore (objects SampleHeader.two_objects) 0) /\
  (copies_cost SampleHeader.bare <= heap_left SampleHeader.bare_one_buffer)%nat /\
  operator_assign SampleHeader.source SampleHeader.source
    SampleHeader.bare_one_buffer
  = Returns tt (mkStore (objects SampleHeader.bare_one_buffer) 0).
Proof.
  split; [vm_compute; lia|]. split; [|split; [vm_compute; lia|]].
  - apply (copy_assignment_self SampleHeader.two_objects SampleHeader.target
             SampleHeader.ret); [reflexivity|vm_compute; lia].
  - apply (copy_assignment_self SampleHeader.bare_one_buffer
             SampleHeader.source SampleHeader.bare);
      [reflexivity|vm_compute; lia].
Defined.

Lemma move_assignment_self_unchanged_witness :
  operator_assign_move SampleHeader.target SampleHeader.target
    SampleHeader.one_object
  = Returns tt SampleHeader.one_object.
Proof.
  apply (move_assignment_self_unchanged SampleHeader.one_object
           SampleHeader.target SampleHeader.call). reflexivity.
Defined.

Lemma assignment_keeps_live_objects_witness :
  exists st',
    operator_assign_move SampleHeader.target SampleHeader.source
      SampleHeader.two_objects = Returns tt st' /\
    dom (objects st') = dom (objects SampleHeader.two_objects) /\
    heap_left st' = heap_left SampleHeader.two_objects.
Proof.
  pose proof (operator_assign_move_run SampleHeader.two_objects
                SampleHeader.target SampleHeader.source
                SampleHeader.ret SampleHeader.call eq_refl eq_refl) as E.
  eexists. split; [exact E|].
  apply (assignment_keeps_live_objects SampleHeader.two_objects
           SampleHeader.target SampleHeader.source
           SampleHeader.ret SampleHeader.call eq_refl eq_refl).
  exact E.
Defined.

Lemma Message_copy_fails_witness :
  (heap_left SampleHeader.two_objects_no_room
   < copies_cost SampleHeader.call)%nat /\
  (exists st',
     Message_copy SampleHeader.source SampleHeader.two_objects_no_room
     = Throws bad_alloc st' /\
     objects st' = objects SampleHeader.two_objects_no_room) /\
  (copies_cost SampleHeader.bare
   <= heap_left SampleHeader.bare_one_buffer)%nat /\
  (exists c st',
     Message_copy SampleHeader.source SampleHeader.bare_one_buffer
     = Returns c st' /\
     objects st' !! c = Some SampleHeader.bare) /\
  (heap_left SampleHeader.bare_no_room < copies_cost SampleHeader.bare)%nat /\
  (exists st',
     Message_copy SampleHeader.source SampleHeader.bare_no_room
     = Throws bad_alloc st').
Proof.
  split; [vm_compute; lia|].
  split; [|split; [vm_compute; lia|split; [|split; [vm_compute; lia|]]]].
  - apply (Message_copy_fails SampleHeader.two_objects_no_room
             SampleHeader.source SampleHeader.call); [reflexivity|].
    vm_compute; lia.
  - destruct (Message_copy_fails SampleHeader.bare_one_buffer
                SampleHeader.source SampleHeader.bare eq_refl)
      as (_ & Hok).
    destruct Hok as (c & st' & E & _ & Hc); [vm_compute; lia|].
    exists c, st'. auto.
  - destruct (Message_copy_fails SampleHeader.bare_no_room
                SampleHeader.source SampleHeader.bare eq_refl)
      as (Hfail & _).
    destruct Hfail as (st' & E & _); [vm_compute; lia|].
    exists st'. exact E.
Defined.

Lemma Message_move_transfers_witness :
  exists c st',
    Message_move SampleHeader.target SampleHeader.one_object
    = Returns c st' /\
    objects st' !! c = Some SampleHeader.call /\
    objects st' !! SampleHeader.target
    = Some (moved_from SampleHeader.call).
Proof.
  destruct (Message_move_transfers SampleHeader.one_object
              SampleHeader.target SampleHeader.call eq_refl)
    as (c & st' & E & _ & Hc & Ho & _).
  exists c, st'. auto.
Defined.

Lemma setId_setId_witness :
  (setId SampleHeader.target 1 ;; setId SampleHeader.target 2)
    SampleHeader.one_object
  = setId SampleHeader.target 2 SampleHeader.one_object.
Proof.
  apply (setId_setId SampleHeader.one_object SampleHeader.target
           SampleHeader.call). reflexivity.
Defined.

Lemma write_then_read_witness :
  exists st',
    (write_payload SampleHeader.target ["z"%byte] ;;
     payload SampleHeader.target) SampleHeader.one_object
    = Returns ["z"%byte] st'.
Proof.
  destruct (write_then_read SampleHeader.one_object SampleHeader.target
              SampleHeader.call ["z"%byte] [] eq_refl)
    as ((st' & E & _) & _).
  exists st'. exact E.
Defined.

Lemma extract_transfers_witness :
  extract SampleHeader.target SampleHeader.one_object
  = Returns (payload_ SampleHeader.call, tensors_ SampleHeader.call)
      (mkStore (<[SampleHeader.target := moved_from SampleHeader.call]>
                  (objects SampleHeader.one_object))
         (heap_left SampleHeader.one_object)).
Proof.
  apply (extract_transfers SampleHeader.one_object SampleHeader.target
           SampleHeader.call). reflexivity.
Defined.
